(** * audit_watch: the LocalStack audit-queue watcher

    A shallow embedding of [docker/scripts/localstack/audit_watch.py] and the
    properties of its watch loop.

    Python values are modelled as the script sees them:
    - a [str] is a list of Unicode code points ([pystr]);
    - an [int] is a [Z] (arbitrary precision);
    - what [json.loads] returns is a [json] value, a [dict] being an
      association list with unique keys in insertion order;
    - an exception is an explicit [Raise] outcome;
    - the module-level set [SEEN] is a [gset pystr] threaded through the loop.

    [json.loads] and [json.dumps] are the standard library's; they are
    modelled here from their documented behaviour, so that the script's
    functions can be run on concrete texts.  The interpreter's limits
    (recursion depth, the digits of an integer literal, memory) are not
    modelled, and the operator's interrupt is taken to arrive while the
    process is blocked, in the client call or in the sleep. *)

From Stdlib Require Import ZArith NArith Ascii String DecimalString.
From stdpp Require Import base gmap sets list.

Local Open Scope N_scope.
Set Warnings "-register-all,-clear-no-such-hyp".

(** ** Python strings *)

Definition pystr := list N.

(** [u "..."] is the Python string with the code points of an ASCII literal. *)
Definition u (s : string) : pystr :=
  map N_of_ascii (list_ascii_of_string s).
Arguments u : simpl never.

(** ** Outcomes of Python code *)

Inductive exn :=
| JSONDecodeError
| KeyError
| TypeError
| ValueError
| AttributeError
| KeyboardInterrupt
| SystemExit (code : Z).

(** [Unmodelled] marks the inputs on which this development does not follow
    the interpreter (arithmetic on [float], [str()] of a container, hashing
    of numbers); nothing is claimed there. *)
Inductive result (A : Type) :=
| Ok (a : A)
| Raise (e : exn)
| Unmodelled.
Arguments Ok {A} a.
Arguments Raise {A} e.
Arguments Unmodelled {A}.

Definition bind {A B} (m : result A) (k : A -> result B) : result B :=
  match m with
  | Ok a => k a
  | Raise e => Raise e
  | Unmodelled => Unmodelled
  end.

Module Json.

(** ** Decoded JSON values

    [json.loads] yields [None], [bool], [int], [float], [str], [list] and
    [dict] with [str] keys.  A [float] is kept as the literal it was read
    from, which determines it. *)
Inductive json :=
| JNull
| JBool (b : bool)
| JInt (z : Z)
| JFloat (lit : pystr)
| JStr (s : pystr)
| JArr (items : list json)
| JObj (fields : list (pystr * json)).

Definition pystr_eqb (a b : pystr) : bool := bool_decide (a = b).

(** [d.get(k)] on the association list of a dict. *)
Fixpoint dict_get (k : pystr) (d : list (pystr * json)) : option json :=
  match d with
  | [] => None
  | (k', v) :: d' => if pystr_eqb k k' then Some v else dict_get k d'
  end.

(** [d[k] = v]: an existing key keeps its position, a new key goes last. *)
Fixpoint dict_set (k : pystr) (v : json) (d : list (pystr * json))
  : list (pystr * json) :=
  match d with
  | [] => [(k, v)]
  | (k', v') :: d' =>
      if pystr_eqb k k' then (k', v) :: d' else (k', v') :: dict_set k v d'
  end.

(** ** Lexer: one pass over the text, one state per character *)

Inductive token :=
| TLBrace | TRBrace | TLBrack | TRBrack | TColon | TComma
| TStr (s : pystr)
| TInt (z : Z)
| TFloat (lit : pystr)
| TTrue | TFalse | TNull.

Inductive numphase :=
| NMinus | NZero | NInt | NDot | NFrac | NE | NESign | NExp.

Inductive lexstate :=
| LTop
| LWord (rest : pystr) (t : token)
| LNum (lit : pystr) (ph : numphase)
| LStr (acc : pystr)
| LEsc (acc : pystr)
| LUni (acc : pystr) (k : nat) (v : N)
| LHi (acc : pystr) (hi : N)
| LHiEsc (acc : pystr) (hi : N)
| LLo (acc : pystr) (hi : N) (k : nat) (v : N).

Definition is_ws (c : N) : bool :=
  (c =? 32) || (c =? 9) || (c =? 10) || (c =? 13).

Definition is_digit (c : N) : bool := (48 <=? c) && (c <=? 57).

Definition hex_val (c : N) : option N :=
  if (48 <=? c) && (c <=? 57) then Some (c - 48)
  else if (97 <=? c) && (c <=? 102) then Some (c - 87)
  else if (65 <=? c) && (c <=? 70) then Some (c - 55)
  else None.

Fixpoint digits_val (ds : pystr) (acc : Z) : Z :=
  match ds with
  | [] => acc
  | d :: ds' => digits_val ds' (10 * acc + Z.of_N (d - 48))%Z
  end.

(** Value of an integer literal: an optional minus sign, then digits. *)
Definition int_of_literal (lit : pystr) : Z :=
  match lit with
  | 45 :: ds => (- digits_val ds 0)%Z
  | _ => digits_val lit 0%Z
  end.

Definition number_token (lit_rev : pystr) (ph : numphase) : option token :=
  match ph with
  | NZero | NInt => Some (TInt (int_of_literal (rev lit_rev)))
  | NFrac | NExp => Some (TFloat (rev lit_rev))
  | NMinus | NDot | NE | NESign => None
  end.

Definition top_char (c : N) : option (lexstate * list token) :=
  if is_ws c then Some (LTop, [])
  else if c =? 123 then Some (LTop, [TLBrace])
  else if c =? 125 then Some (LTop, [TRBrace])
  else if c =? 91 then Some (LTop, [TLBrack])
  else if c =? 93 then Some (LTop, [TRBrack])
  else if c =? 58 then Some (LTop, [TColon])
  else if c =? 44 then Some (LTop, [TComma])
  else if c =? 34 then Some (LStr [], [])
  else if c =? 45 then Some (LNum [c] NMinus, [])
  else if c =? 48 then Some (LNum [c] NZero, [])
  else if is_digit c then Some (LNum [c] NInt, [])
  else if c =? 116 then Some (LWord (u "rue") TTrue, [])
  else if c =? 102 then Some (LWord (u "alse") TFalse, [])
  else if c =? 110 then Some (LWord (u "ull") TNull, [])
  else if c =? 78 then Some (LWord (u "aN") (TFloat (u "NaN")), [])
  else if c =? 73 then Some (LWord (u "nfinity") (TFloat (u "Infinity")), [])
  else None.

(** A character inside a string literal (strict mode: no control characters). *)
Definition str_char (acc : pystr) (c : N) : option (lexstate * list token) :=
  if c =? 34 then Some (LTop, [TStr (rev acc)])
  else if c =? 92 then Some (LEsc acc, [])
  else if c <? 32 then None
  else Some (LStr (c :: acc), []).

(** The character after a backslash. *)
Definition esc_char (acc : pystr) (c : N) : option (lexstate * list token) :=
  if c =? 34 then Some (LStr (34 :: acc), [])
  else if c =? 92 then Some (LStr (92 :: acc), [])
  else if c =? 47 then Some (LStr (47 :: acc), [])
  else if c =? 98 then Some (LStr (8 :: acc), [])
  else if c =? 102 then Some (LStr (12 :: acc), [])
  else if c =? 110 then Some (LStr (10 :: acc), [])
  else if c =? 114 then Some (LStr (13 :: acc), [])
  else if c =? 116 then Some (LStr (9 :: acc), [])
  else if c =? 117 then Some (LUni acc 4 0, [])
  else None.

Definition is_high_surrogate (v : N) : bool := (55296 <=? v) && (v <=? 56319).
Definition is_low_surrogate (v : N) : bool := (56320 <=? v) && (v <=? 57343).

(** After [\uXXXX] decoded to [v]: a high surrogate waits for its partner. *)
Definition after_escape (acc : pystr) (v : N) : lexstate :=
  if is_high_surrogate v then LHi acc v else LStr (v :: acc).

Definition join_surrogates (hi lo : N) : N :=
  65536 + N.lor (N.shiftl (hi - 55296) 10) (lo - 56320).

Definition num_char (lit : pystr) (ph : numphase) (c : N)
  : option (lexstate * list token) :=
  let continue ph' := Some (LNum (c :: lit) ph', []) in
  let close :=
    match number_token lit ph, top_char c with
    | Some t, Some (st, ts) => Some (st, t :: ts)
    | _, _ => None
    end in
  match ph with
  | NMinus =>
      if c =? 48 then continue NZero
      else if is_digit c then continue NInt
      else if c =? 73
      then Some (LWord (u "nfinity") (TFloat (u "-Infinity")), [])
      else None
  | NZero =>
      if c =? 46 then continue NDot
      else if (c =? 101) || (c =? 69) then continue NE
      else close
  | NInt =>
      if is_digit c then continue NInt
      else if c =? 46 then continue NDot
      else if (c =? 101) || (c =? 69) then continue NE
      else close
  | NDot => if is_digit c then continue NFrac else None
  | NFrac =>
      if is_digit c then continue NFrac
      else if (c =? 101) || (c =? 69) then continue NE
      else close
  | NE =>
      if (c =? 43) || (c =? 45) then continue NESign
      else if is_digit c then continue NExp
      else None
  | NESign => if is_digit c then continue NExp else None
  | NExp => if is_digit c then continue NExp else close
  end.

Definition lex_step (st : lexstate) (c : N) : option (lexstate * list token) :=
  match st with
  | LTop => top_char c
  | LWord [] _ => None
  | LWord (r :: rs) t =>
      if c =? r
      then match rs with
           | [] => Some (LTop, [t])
           | _ => Some (LWord rs t, [])
           end
      else None
  | LNum lit ph => num_char lit ph c
  | LStr acc => str_char acc c
  | LEsc acc => esc_char acc c
  | LUni acc k v =>
      match hex_val c, k with
      | Some h, S O => Some (after_escape acc (16 * v + h), [])
      | Some h, S k' => Some (LUni acc k' (16 * v + h), [])
      | _, _ => None
      end
  | LHi acc hi =>
      if c =? 92 then Some (LHiEsc acc hi, []) else str_char (hi :: acc) c
  | LHiEsc acc hi =>
      if c =? 117 then Some (LLo acc hi 4 0, []) else esc_char (hi :: acc) c
  | LLo acc hi k v =>
      match hex_val c, k with
      | Some h, S O =>
          let lo := 16 * v + h in
          if is_low_surrogate lo
          then Some (LStr (join_surrogates hi lo :: acc), [])
          else Some (after_escape (hi :: acc) lo, [])
      | Some h, S k' => Some (LLo acc hi k' (16 * v + h), [])
      | _, _ => None
      end
  end.

Definition lex_finish (st : lexstate) : option (list token) :=
  match st with
  | LTop => Some []
  | LNum lit ph =>
      match number_token lit ph with
      | Some t => Some [t]
      | None => None
      end
  | _ => None
  end.

Fixpoint lex (st : lexstate) (cs : pystr) : option (list token) :=
  match cs with
  | [] => lex_finish st
  | c :: cs' =>
      match lex_step st c with
      | Some (st', ts) =>
          match lex st' cs' with
          | Some rest => Some (ts ++ rest)
          | None => None
          end
      | None => None
      end
  end.

(** ** Parser: one pass over the tokens with a stack of open containers *)

Inductive frame :=
| FArr (items_rev : list json)
| FObj (fields : list (pystr * json)) (key : option pystr).

Inductive pmode :=
| PValue | PArrStart | PObjStart | PKey | PColon | PAfter
| PDone (v : json).

(** A complete value goes into the innermost open container. *)
Definition reduce (v : json) (stack : list frame)
  : option (pmode * list frame) :=
  match stack with
  | [] => Some (PDone v, [])
  | FArr items :: st => Some (PAfter, FArr (v :: items) :: st)
  | FObj fields (Some k) :: st =>
      Some (PAfter, FObj (dict_set k v fields) None :: st)
  | FObj _ None :: _ => None
  end.

Definition scalar (t : token) : option json :=
  match t with
  | TStr s => Some (JStr s)
  | TInt z => Some (JInt z)
  | TFloat lit => Some (JFloat lit)
  | TTrue => Some (JBool true)
  | TFalse => Some (JBool false)
  | TNull => Some JNull
  | _ => None
  end.

Definition value_token (t : token) (stack : list frame)
  : option (pmode * list frame) :=
  match t with
  | TLBrack => Some (PArrStart, FArr [] :: stack)
  | TLBrace => Some (PObjStart, FObj [] None :: stack)
  | _ => match scalar t with
         | Some v => reduce v stack
         | None => None
         end
  end.

Definition key_token (t : token) (stack : list frame)
  : option (pmode * list frame) :=
  match t, stack with
  | TStr k, FObj fields None :: st => Some (PColon, FObj fields (Some k) :: st)
  | _, _ => None
  end.

Definition close_array (stack : list frame) : option (pmode * list frame) :=
  match stack with
  | FArr items :: st => reduce (JArr (rev items)) st
  | _ => None
  end.

Definition close_object (stack : list frame) : option (pmode * list frame) :=
  match stack with
  | FObj fields None :: st => reduce (JObj fields) st
  | _ => None
  end.

Definition parse_step (m : pmode) (stack : list frame) (t : token)
  : option (pmode * list frame) :=
  match m with
  | PValue => value_token t stack
  | PArrStart =>
      match t with
      | TRBrack => close_array stack
      | _ => value_token t stack
      end
  | PObjStart =>
      match t with
      | TRBrace => close_object stack
      | _ => key_token t stack
      end
  | PKey => key_token t stack
  | PColon =>
      match t with
      | TColon => Some (PValue, stack)
      | _ => None
      end
  | PAfter =>
      match t, stack with
      | TComma, FArr _ :: _ => Some (PValue, stack)
      | TComma, FObj _ None :: _ => Some (PKey, stack)
      | TRBrack, _ => close_array stack
      | TRBrace, _ => close_object stack
      | _, _ => None
      end
  | PDone _ => None
  end.

Fixpoint parse (m : pmode) (stack : list frame) (ts : list token)
  : option json :=
  match ts with
  | [] => match m with
          | PDone v => Some v
          | _ => None
          end
  | t :: ts' =>
      match parse_step m stack t with
      | Some (m', stack') => parse m' stack' ts'
      | None => None
      end
  end.

(** [json.loads(s)] for a [str] argument: the decoded value, or
    [JSONDecodeError] when [s] is not one JSON text. *)
Definition loads (s : pystr) : result json :=
  match lex LTop s with
  | Some ts =>
      match parse PValue [] ts with
      | Some v => Ok v
      | None => Raise JSONDecodeError
      end
  | None => Raise JSONDecodeError
  end.

(** ** Encoder: [json.dumps(obj, indent=2)] *)

Section Encoder.

(** The text [json.dumps] writes for the float read from a literal
    ([repr] of the float, or [NaN], [Infinity], [-Infinity]). *)
Variable float_text : pystr -> pystr.

Definition hex_digit (n : N) : N := if n <? 10 then 48 + n else 87 + n.

Definition u_escape (n : N) : pystr :=
  [92; 117; hex_digit (n / 4096 mod 16); hex_digit (n / 256 mod 16);
   hex_digit (n / 16 mod 16); hex_digit (n mod 16)].

(** [ensure_ascii=True]: everything outside the printable ASCII range, the
    quote and the backslash are escaped. *)
Definition escape_char (c : N) : pystr :=
  if c =? 34 then [92; 34]
  else if c =? 92 then [92; 92]
  else if c =? 10 then [92; 110]
  else if c =? 13 then [92; 114]
  else if c =? 9 then [92; 116]
  else if c =? 8 then [92; 98]
  else if c =? 12 then [92; 102]
  else if (32 <=? c) && (c <=? 126) then [c]
  else if c <? 65536 then u_escape c
  else
    let n := c - 65536 in
    u_escape (N.lor 55296 (N.land (N.shiftr n 10) 1023))
      ++ u_escape (N.lor 56320 (N.land n 1023)).

Definition encode_str (s : pystr) : pystr :=
  34 :: concat (map escape_char s) ++ [34].

Definition int_text (z : Z) : pystr :=
  u (NilZero.string_of_int (Z.to_int z)).

Fixpoint join (sep : pystr) (parts : list pystr) : pystr :=
  match parts with
  | [] => []
  | [p] => p
  | p :: ps => p ++ sep ++ join sep ps
  end.

Definition newline_indent (level : nat) : pystr :=
  10 :: repeat 32 (2 * level)%nat.

Fixpoint dumps_at (level : nat) (v : json) : pystr :=
  match v with
  | JNull => u "null"
  | JBool true => u "true"
  | JBool false => u "false"
  | JInt z => int_text z
  | JFloat lit => float_text lit
  | JStr s => encode_str s
  | JArr [] => u "[]"
  | JArr items =>
      u "[" ++ newline_indent (S level)
        ++ join (u "," ++ newline_indent (S level))
                (map (dumps_at (S level)) items)
        ++ newline_indent level ++ u "]"
  | JObj [] => u "{}"
  | JObj fields =>
      u "{" ++ newline_indent (S level)
        ++ join (u "," ++ newline_indent (S level))
                (map (fun kv => encode_str (fst kv) ++ u ": "
                                  ++ dumps_at (S level) (snd kv)) fields)
        ++ newline_indent level ++ u "}"
  end.

Definition dumps (v : json) : pystr := dumps_at 0 v.

End Encoder.

End Json.

Import Json.

(** ** Python operations on decoded values *)

Fixpoint is_prefix (p s : pystr) : bool :=
  match p, s with
  | [], _ => true
  | _ :: _, [] => false
  | a :: p', b :: s' => (a =? b) && is_prefix p' s'
  end.

(** [p in s] for two [str]: [p] occurs in [s]. *)
Fixpoint is_substring (p s : pystr) : bool :=
  is_prefix p s ||
  match s with
  | [] => false
  | _ :: s' => is_substring p s'
  end.

Definition is_str (v : json) (s : pystr) : bool :=
  match v with
  | JStr s' => pystr_eqb s s'
  | _ => false
  end.

(** [key in obj] for a [str] key: membership in a dict's keys, equality
    with an element of a list, substring of a [str]; the other values are
    not containers. *)
Definition py_contains (key : pystr) (obj : json) : result bool :=
  match obj with
  | JObj fields => Ok (bool_decide (is_Some (dict_get key fields)))
  | JArr items => Ok (existsb (fun x => is_str x key) items)
  | JStr s => Ok (is_substring key s)
  | JNull | JBool _ | JInt _ | JFloat _ => Raise TypeError
  end.

(** [obj[key]] for a [str] key. *)
Definition py_getitem (obj : json) (key : pystr) : result json :=
  match obj with
  | JObj fields =>
      match dict_get key fields with
      | Some v => Ok v
      | None => Raise KeyError
      end
  | _ => Raise TypeError
  end.

(** [obj[key] = v] for a [str] key. *)
Definition py_setitem (obj : json) (key : pystr) (v : json) : result json :=
  match obj with
  | JObj fields => Ok (JObj (dict_set key v fields))
  | _ => Raise TypeError
  end.

(** [obj.get(key, default)]: only a dict has the method. *)
Definition py_get (obj : json) (key : pystr) (default : json) : result json :=
  match obj with
  | JObj fields =>
      match dict_get key fields with
      | Some v => Ok v
      | None => Ok default
      end
  | _ => Raise AttributeError
  end.

(** The values a [for] loop takes over [v]: elements of a list, keys of a
    dict, characters of a [str]. *)
Definition py_iter (v : json) : result (list json) :=
  match v with
  | JArr items => Ok items
  | JObj fields => Ok (map (fun kv => JStr (fst kv)) fields)
  | JStr s => Ok (map (fun c => JStr [c]) s)
  | JNull | JBool _ | JInt _ | JFloat _ => Raise TypeError
  end.

(** Truth value of [v] in [if v:]. *)
Definition truthy (v : json) : result bool :=
  match v with
  | JNull => Ok false
  | JBool b => Ok b
  | JInt z => Ok (negb (z =? 0)%Z)
  | JFloat _ => Unmodelled
  | JStr s => Ok (negb (bool_decide (s = [])))
  | JArr items => Ok (negb (bool_decide (items = [])))
  | JObj fields => Ok (negb (bool_decide (fields = [])))
  end.

(** ASCII white space that [int()] strips. *)
Definition is_space (c : N) : bool :=
  ((9 <=? c) && (c <=? 13)) || ((28 <=? c) && (c <=? 32)).

Fixpoint lstrip (s : pystr) : pystr :=
  match s with
  | c :: s' => if is_space c then lstrip s' else s
  | [] => []
  end.

Definition strip (s : pystr) : pystr := rev (lstrip (rev (lstrip s))).

(** Decimal digits with single underscores between them. *)
Fixpoint int_digits (cs : pystr) (acc : Z) (after_digit : bool) : option Z :=
  match cs with
  | [] => if after_digit then Some acc else None
  | c :: cs' =>
      if is_digit c then int_digits cs' (10 * acc + Z.of_N (c - 48))%Z true
      else if (c =? 95) && after_digit then int_digits cs' acc false
      else None
  end.

Definition int_of_str (s : pystr) : option Z :=
  match strip s with
  | 45 :: ds => option_map Z.opp (int_digits ds 0%Z false)
  | 43 :: ds => int_digits ds 0%Z false
  | ds => int_digits ds 0%Z false
  end.

(** [int(v)].  A [str] with a character outside ASCII (other scripts'
    digits and spaces) and a [float] are not modelled. *)
Definition py_int (v : json) : result Z :=
  match v with
  | JInt z => Ok z
  | JBool b => Ok (if b then 1 else 0)%Z
  | JStr s =>
      if forallb (fun c => c <? 128) s
      then match int_of_str s with
           | Some z => Ok z
           | None => Raise ValueError
           end
      else Unmodelled
  | JFloat _ => Unmodelled
  | JNull | JArr _ | JObj _ => Raise TypeError
  end.

(** ** The script *)

(** Configuration *)
Definition QUEUE_NAME : pystr := u "audit-queue".
Definition REGION : pystr := u "eu-west-2".

(** Colors: the escape character followed by the SGR code. *)
Definition GREEN : pystr := 27 :: u "[0;32m".
Definition YELLOW : pystr := 27 :: u "[1;33m".
Definition BLUE : pystr := 27 :: u "[0;34m".
Definition NC : pystr := 27 :: u "[0m".

(** What the process does to the outside, in order. *)
Inductive action :=
| Spawn (argv : list pystr)      (* subprocess.run(argv, ...) *)
| Stdout (text : pystr)          (* print(text) *)
| Sleep (milliseconds : Z).      (* time.sleep(0.1) *)

(** The mutable state: the module-level set [SEEN], the actions so far and
    the number of readings taken from the wall clock. *)
Record state := State {
  SEEN : gset pystr;
  trace : list action;
  clock : nat
}.

Definition initial_state : state :=
  {| SEEN := ∅; trace := []; clock := 0 |}.

(** Stateful code that may raise: the state survives the exception. *)
Definition M (A : Type) : Type := state -> result A * state.

Definition ret {A} (a : A) : M A := fun st => (Ok a, st).
Definition raise {A} (e : exn) : M A := fun st => (Raise e, st).
Definition lift {A} (r : result A) : M A := fun st => (r, st).

Definition mbind {A B} (m : M A) (k : A -> M B) : M B :=
  fun st =>
    match m st with
    | (Ok a, st') => k a st'
    | (Raise e, st') => (Raise e, st')
    | (Unmodelled, st') => (Unmodelled, st')
    end.

Notation "'let*' x ':=' m 'in' k" := (mbind m (fun x => k))
  (at level 10, x name, m at level 100, k at level 200, only parsing).

Definition emit (a : action) : M unit :=
  fun st =>
    (Ok tt, {| SEEN := SEEN st; trace := trace st ++ [a]; clock := clock st |}).

Definition get_seen : M (gset pystr) := fun st => (Ok (SEEN st), st).

Definition print (text : pystr) : M unit := emit (Stdout text).

(** Print a colored log message. *)
Definition log (message color : pystr) : M unit :=
  print (color ++ message ++ NC).

(** What the environment answers to a blocking call: the client finished,
    or the operator's interrupt arrived while the process was waiting. *)
Inductive answer :=
| Finished (returncode : Z) (stdout : pystr)
| Interrupted.

(** Run awslocal SQS command and return parsed JSON response ([JNull] is
    Python's [None]). *)
Definition run_aws (args : list pystr) (a : answer) : M json :=
  let* _ := emit (Spawn ([u "awslocal"; u "sqs"] ++ args
                         ++ [u "--region"; REGION; u "--output"; u "json"])) in
  match a with
  | Interrupted => raise KeyboardInterrupt
  | Finished returncode stdout =>
      if (returncode =? 0)%Z
      then match loads stdout with
           | Ok v => ret v
           | Raise JSONDecodeError => ret JNull
           | Raise e => raise e
           | Unmodelled => lift Unmodelled
           end
      else ret JNull
  end.

(** ** Responses of the shape SQS gives them *)

(** The three fields the loop reads from a message: the identifier, the
    sent-timestamp as [int()] reads it, and the body. *)
Definition message_view (msg : json) : option (pystr * Z * pystr) :=
  match py_getitem msg (u "MessageId"),
        bind (py_getitem msg (u "Attributes")) (fun attributes =>
        bind (py_getitem attributes (u "SentTimestamp")) py_int),
        py_getitem msg (u "Body")
  with
  | Ok (JStr i), Ok sent_ts, Ok (JStr b) => Some (i, sent_ts, b)
  | _, _, _ => None
  end.

(** The values the [for] loop runs over: none when the response is falsy. *)
Definition response_messages (response : json) : option (list json) :=
  match truthy response with
  | Ok false => Some []
  | Ok true =>
      match bind (py_get response (u "Messages") (JArr [])) py_iter with
      | Ok msgs => Some msgs
      | _ => None
      end
  | _ => None
  end.

Definition well_shaped (response : json) : bool :=
  match response_messages response with
  | Some msgs => forallb (fun m => bool_decide (is_Some (message_view m))) msgs
  | None => false
  end.

(** [msg] carries the identifier [i]. *)
Definition has_id (i : pystr) (msg : json) : bool :=
  match py_getitem msg (u "MessageId") with
  | Ok v => is_str v i
  | _ => false
  end.


(** What [run_aws] returns when the client finished: the decoded standard
    output, or [None] on a non-zero exit or undecodable output. *)
Definition response_of (returncode : Z) (stdout : pystr) : json :=
  if (returncode =? 0)%Z
  then match loads stdout with
       | Ok v => v
       | _ => JNull
       end
  else JNull.


(** The queue resolution gave the queue URL [q]. *)
Definition resolved (startup : answer) (q : pystr) : bool :=
  match startup with
  | Finished returncode stdout =>
      match truthy (response_of returncode stdout),
            py_getitem (response_of returncode stdout) (u "QueueUrl")
      with
      | Ok true, Ok (JStr q') => pystr_eqb q q'
      | _, _ => false
      end
  | Interrupted => false
  end.


Section Watcher.

(** [START_TIME]: milliseconds since the epoch, read once at launch. *)
Variable START_TIME : Z.
(** The text of a decoded float in [json.dumps]. *)
Variable float_text : pystr -> pystr.
(** [datetime.now().strftime('%Y-%m-%d %H:%M:%S')] at the n-th reading. *)
Variable strftime_now : nat -> pystr.

Definition now : M pystr :=
  fun st =>
    (Ok (strftime_now (clock st)),
     {| SEEN := SEEN st; trace := trace st; clock := S (clock st) |}).

(** The inner [try] of [format_event]: replace [details] by its parse, or
    leave [obj] as it is when anything raises. *)
Definition expand_details (obj : json) : result json :=
  match
    bind (py_getitem obj (u "details")) (fun d =>
    bind (match d with
          | JStr s => loads s
          | _ => Raise TypeError
          end) (fun v =>
    py_setitem obj (u "details") v))
  with
  | Ok obj' => Ok obj'
  | Raise _ => Ok obj
  | Unmodelled => Unmodelled
  end.

(** The body of the outer [try] of [format_event]. *)
Definition format_event_try (body : pystr) : result pystr :=
  bind (loads body) (fun obj =>
  bind (py_contains (u "details") obj) (fun has_details =>
  bind (if has_details
        then bind (py_getitem obj (u "details")) (fun d =>
             match d with
             | JStr _ => expand_details obj
             | _ => Ok obj
             end)
        else Ok obj) (fun obj' =>
  Ok (dumps float_text obj')))).

(** Parse and pretty-print audit event, expanding nested JSON in 'details'
    field.  The bare [except] turns every exception into the raw body. *)
Definition format_event (body : pystr) : result pystr :=
  match format_event_try body with
  | Ok text => Ok text
  | Raise _ => Ok body
  | Unmodelled => Unmodelled
  end.

(** [sent_ts > START_TIME and msg_id not in SEEN], the right operand being
    evaluated only when the left one holds; a list or a dict is not
    hashable. *)
Definition should_display (seen : gset pystr) (sent_ts : Z) (msg_id : json)
  : result bool :=
  if (START_TIME <? sent_ts)%Z
  then match msg_id with
       | JStr i => Ok (bool_decide (i ∉ seen))
       | JArr _ | JObj _ => Raise TypeError
       | JNull | JBool _ | JInt _ | JFloat _ => Unmodelled
       end
  else Ok false.

(** [SEEN.add(msg_id)] *)
Definition seen_add (msg_id : json) : M unit :=
  match msg_id with
  | JStr i =>
      fun st =>
        (Ok tt,
         {| SEEN := {[i]} ∪ SEEN st; trace := trace st; clock := clock st |})
  | JArr _ | JObj _ => raise TypeError
  | JNull | JBool _ | JInt _ | JFloat _ => lift Unmodelled
  end.

(** The body of the [for] loop. *)
Definition handle_message (msg : json) : M unit :=
  let* msg_id := lift (py_getitem msg (u "MessageId")) in
  let* attributes := lift (py_getitem msg (u "Attributes")) in
  let* sent := lift (py_getitem attributes (u "SentTimestamp")) in
  let* sent_ts := lift (py_int sent) in
  let* seen := get_seen in
  let* fresh := lift (should_display seen sent_ts msg_id) in
  if fresh : bool
  then
    let* _ := seen_add msg_id in
    let* timestamp := now in
    let* _ := log (u "[" ++ timestamp ++ u "] New audit event:") GREEN in
    let* body := lift (py_getitem msg (u "Body")) in
    let* text := lift (match body with
                  | JStr b => format_event b
                  | _ => Unmodelled
                  end) in
    let* _ := print text in
    print []
  else ret tt.

Fixpoint for_each {A} (f : A -> M unit) (l : list A) : M unit :=
  match l with
  | [] => ret tt
  | x :: l' => let* _ := f x in for_each f l'
  end.

(** [if response: for msg in response.get('Messages', []): ...] *)
Definition process_response (response : json) : M unit :=
  let* nonempty := lift (truthy response) in
  if nonempty : bool
  then
    let* messages := lift (py_get response (u "Messages") (JArr [])) in
    let* msgs := lift (py_iter messages) in
    for_each handle_message msgs
  else ret tt.

Definition receive_message_args (queue_url : pystr) : list pystr :=
  [u "receive-message"; u "--queue-url"; queue_url;
   u "--max-number-of-messages"; u "10";
   u "--wait-time-seconds"; u "5";
   u "--visibility-timeout"; u "0";
   u "--attribute-names"; u "SentTimestamp"].

(** One turn of the loop as the environment drives it: the answer to the
    poll, and whether the interrupt arrives during the sleep after it
    (which matters only when the poll finished). *)
Record round := Round {
  poll : answer;
  sleep_interrupted : bool
}.

Definition sleep (interrupted : bool) : M unit :=
  let* _ := emit (Sleep 100) in
  if interrupted then raise KeyboardInterrupt else ret tt.

(** The body of [while True].  [subprocess.run] refuses an argument that
    is not a [str]. *)
Definition iteration (queue_url : json) (r : round) : M unit :=
  let* response := match queue_url with
              | JStr q => run_aws (receive_message_args q) (poll r)
              | _ => raise TypeError
              end in
  let* _ := process_response response in
  sleep (sleep_interrupted r).

(** Where [main] stands after the rounds it was given. *)
Inductive status := Running | Returned.

Fixpoint loop (queue_url : json) (rounds : list round) : M status :=
  match rounds with
  | [] => ret Running
  | r :: rounds' => let* _ := iteration queue_url r in loop queue_url rounds'
  end.

(** [try: m except KeyboardInterrupt: handler] *)
Definition except_interrupt {A} (m : M A) (handler : M A) : M A :=
  fun st =>
    match m st with
    | (Raise KeyboardInterrupt, st') => handler st'
    | other => other
    end.

Definition main (startup : answer) (rounds : list round) : M status :=
  let* _ := log (u "Watching audit queue: " ++ QUEUE_NAME ++ u " ("
                   ++ REGION ++ u ")") BLUE in
  let* response := run_aws [u "get-queue-url"; u "--queue-name"; QUEUE_NAME]
                      startup in
  let* found := lift (truthy response) in
  if negb found
  then
    let* _ := log (u "Error: Queue '" ++ QUEUE_NAME ++ u "' not found")
                  YELLOW in
    raise (SystemExit 1)
  else
    let* queue_url := lift (py_getitem response (u "QueueUrl")) in
    let* start_time_str := now in
    let* _ := log (u "Watching for events sent after " ++ start_time_str
                     ++ u "..." ++ [10]) BLUE in
    except_interrupt (loop queue_url rounds)
                     (let* _ := log ([10] ++ u "Stopped") YELLOW in
                      ret Returned).

(** How the process stands once [main()] was run on its inputs. *)
Inductive outcome :=
| Looping                 (* still inside [while True] *)
| Exited (code : Z)       (* [main] returned, or [sys.exit] *)
| Uncaught (e : exn)      (* traceback *)
| NotModelled.

Definition classify (r : result status) : outcome :=
  match r with
  | Ok Running => Looping
  | Ok Returned => Exited 0
  | Raise (SystemExit code) => Exited code
  | Raise e => Uncaught e
  | Unmodelled => NotModelled
  end.

Definition run (startup : answer) (rounds : list round) : outcome * state :=
  let (r, st) := main startup rounds initial_state in (classify r, st).

(** ** Observing the loop *)

(** The responses of successive polls, handled one after the other. *)
Definition watch (responses : list json) : M unit :=
  for_each process_response responses.

(** What [format_event] prints for a body. *)
Definition render (body : pystr) : pystr :=
  match format_event body with
  | Ok text => text
  | _ => body
  end.

(** The line that opens the display of a message. *)
Definition header (n : nat) : pystr :=
  GREEN ++ (u "[" ++ strftime_now n ++ u "] New audit event:") ++ NC.

(** The state after a message was displayed: its identifier is seen, the
    header, the rendered body and a blank line are printed. *)
Definition displayed (i body : pystr) (st : state) : state :=
  {| SEEN := {[i]} ∪ SEEN st;
     trace := trace st
                ++ [Stdout (header (clock st));
                    Stdout (render body);
                    Stdout []];
     clock := S (clock st) |}.

(** Handling [msg] in [st] printed something. *)
Definition shows (msg : json) (st : state) : bool :=
  negb (length (trace (handle_message msg st).2) =? length (trace st))%nat.

(** How many times the loop over [msgs] displays a message with the
    identifier [i]; the loop ends at the first exception. *)
Fixpoint displays_in (i : pystr) (msgs : list json) (st : state) : nat :=
  match msgs with
  | [] => 0
  | msg :: msgs' =>
      ((if has_id i msg && shows msg st then 1 else 0)
       + match handle_message msg st with
         | (Ok _, st') => displays_in i msgs' st'
         | _ => 0
         end)%nat
  end.

(** The same over the responses of successive polls. *)
Fixpoint displays (i : pystr) (responses : list json) (st : state) : nat :=
  match responses with
  | [] => 0
  | response :: rest =>
      (displays_in i (default [] (response_messages response)) st
       + match process_response response st with
         | (Ok _, st') => displays i rest st'
         | _ => 0
         end)%nat
  end.

(** The test of the [if] in the loop body, with the lookups before it. *)
Definition display_test (msg : json) (st : state) : result bool :=
  bind (py_getitem msg (u "MessageId")) (fun msg_id =>
  bind (py_getitem msg (u "Attributes")) (fun attributes =>
  bind (py_getitem attributes (u "SentTimestamp")) (fun sent =>
  bind (py_int sent) (fun sent_ts =>
  should_display (SEEN st) sent_ts msg_id)))).

(** A decoded number, boolean or [None]. *)
Definition is_scalar (v : json) : bool :=
  match v with
  | JNull | JBool _ | JInt _ | JFloat _ => true
  | JStr _ | JArr _ | JObj _ => false
  end.

(** ** Frames

    [extends P st st']: from [st] to [st'] the seen-set only grew and the
    trace only grew, by actions that satisfy [P]. *)
Definition extends (P : action -> Prop) (st st' : state) : Prop :=
  SEEN st ⊆ SEEN st'
  /\ exists acts : list action, trace st' = trace st ++ acts /\ Forall P acts.

(** [m] only does that, from any state and whatever it returns. *)
Definition keeps (P : action -> Prop) {A} (m : M A) : Prop :=
  forall st : state, extends P st (m st).2.

Definition is_stdout (a : action) : Prop :=
  match a with
  | Stdout _ => True
  | _ => False
  end.

(** The full command line of the poll. *)
Definition receive_message_argv (queue_url : pystr) : list pystr :=
  [u "awslocal"; u "sqs"] ++ receive_message_args queue_url
    ++ [u "--region"; REGION; u "--output"; u "json"].

(** The full command line of the queue resolution. *)
Definition get_queue_url_argv : list pystr :=
  [u "awslocal"; u "sqs"] ++ [u "get-queue-url"; u "--queue-name"; QUEUE_NAME]
    ++ [u "--region"; REGION; u "--output"; u "json"].

(** What an iteration may do: print, sleep, and spawn the poll of the
    queue it was given. *)
Definition is_loop_action (queue_url : json) (a : action) : Prop :=
  match a with
  | Stdout _ => True
  | Sleep _ => True
  | Spawn argv =>
      exists q : pystr, queue_url = JStr q /\ argv = receive_message_argv q
  end.

(** What [main] may do: the same, and the queue resolution. *)
Definition is_main_action (a : action) : Prop :=
  match a with
  | Stdout _ => True
  | Sleep _ => True
  | Spawn argv =>
      argv = get_queue_url_argv
      \/ exists q : pystr, argv = receive_message_argv q
  end.

(** ** Exceptions

    [raises E m]: whatever [m] raises satisfies [E]. *)
Definition raises (E : exn -> Prop) {A} (m : M A) : Prop :=
  forall (st : state) (e : exn), (m st).1 = Raise e -> E e.

(** The exceptions that data of an unexpected shape gives. *)
Definition data_error (e : exn) : Prop :=
  e = KeyError \/ e = TypeError \/ e = ValueError \/ e = AttributeError.

(** A character a terminal shows as it is: printable ASCII, or the
    newline. *)
Definition printable (c : N) : bool :=
  (c =? 10) || ((32 <=? c) && (c <=? 126)).

(** ** Rounds as the environment may drive them *)

(** The interrupt arrives during this round, in the poll or in the sleep. *)
Definition interrupted (r : round) : bool :=
  match poll r with
  | Interrupted => true
  | Finished _ _ => sleep_interrupted r
  end.


Definition banner : pystr :=
  BLUE ++ (u "Watching audit queue: " ++ QUEUE_NAME ++ u " ("
             ++ REGION ++ u ")") ++ NC.

Definition not_found_line : pystr :=
  YELLOW ++ (u "Error: Queue '" ++ QUEUE_NAME ++ u "' not found") ++ NC.

Definition stopped_line : pystr := YELLOW ++ ([10] ++ u "Stopped") ++ NC.

(** The state in which [main] enters the loop. *)
Definition loop_entry : state :=
  {| SEEN := ∅;
     trace := [Stdout banner;
               Spawn get_queue_url_argv;
               Stdout (BLUE ++ (u "Watching for events sent after "
                                  ++ strftime_now 0 ++ u "..." ++ [10]) ++ NC)];
     clock := 1 |}.

(** The state with one more action. *)
Definition after (st : state) (acts : list action) : state :=
  {| SEEN := SEEN st; trace := trace st ++ acts; clock := clock st |}.

(** ** Sample inputs *)

(** An ASCII literal in which the apostrophe stands for the double quote. *)
Definition uq (s : string) : pystr :=
  map (fun c => if c =? 39 then 34 else c) (u s).

Definition unlines (ls : list pystr) : pystr := join [10] ls.

(** The body with a [details] string that is itself JSON. *)
Definition body_nested : pystr := uq "{'a':1,'details':'{\'b\':2}'}".
(** The body with a [details] string that is not. *)
Definition body_plain : pystr := uq "{'a':1,'details':'not-json'}".

(** A launch time, a clock and a queue for the examples.  The sample
    texts hold no float, so what stands for the text of a float is never
    consulted. *)
Definition sample_start : Z := 1700000000000.
Definition sample_float_text (lit : pystr) : pystr := lit.
Definition sample_clock (n : nat) : pystr := u "2026-01-01 12:00:00".
Definition sample_queue : pystr :=
  u "http://localhost:4566/000000000000/audit-queue".
Definition sample_startup : answer :=
  Finished 0
    (uq "{'QueueUrl':'http://localhost:4566/000000000000/audit-queue'}").

(** The output of a poll that delivers an event sent before the launch. *)
Definition poll_old : pystr :=
  uq ("{'Messages':[{'MessageId':'m-0',"
      ++ "'Attributes':{'SentTimestamp':'1699999999999'},"
      ++ "'Body':'{}'}]}").

(** ** Properties of [format_event] *)

Lemma loads_cases (s : pystr) :
  (exists v, loads s = Ok v) \/ loads s = Raise JSONDecodeError.
Proof.
  unfold loads. destruct (lex LTop s) as [ts|]; [|by right].
  destruct (parse PValue [] ts) as [v|]; [left; by exists v | by right].
Qed.

Lemma expand_details_total (obj : json) :
  exists obj', expand_details obj = Ok obj'.
Proof.
  unfold expand_details.
  destruct (py_getitem obj (u "details")) as [d| |] eqn:Hd; simpl;
    [| by eexists | destruct obj; simpl in Hd; try discriminate;
                    destruct (dict_get _ _); discriminate].
  destruct d as [| | | |s| |]; simpl; try by eexists.
  destruct (loads_cases s) as [[v ->]| ->]; simpl; [| by eexists].
  destruct obj; simpl; by eexists.
Qed.

Lemma format_event_try_modelled (body : pystr) :
  format_event_try body <> Unmodelled.
Proof.
  unfold format_event_try.
  destruct (loads_cases body) as [[obj ->]| ->]; simpl; [| discriminate].
  destruct obj as [| | | |s|items|fields]; simpl; try discriminate.
  - destruct (is_substring _ _); simpl; discriminate.
  - destruct (existsb _ _); simpl; discriminate.
  - destruct (bool_decide _); simpl; [| discriminate].
    destruct (dict_get _ _) as [d|]; simpl; [| discriminate].
    destruct d; simpl; try discriminate.
    destruct (expand_details_total (JObj fields)) as [obj' ->].
    simpl. discriminate.
Qed.

(** [format_event] never raises, whatever the body. *)
Lemma format_event_total (body : pystr) :
  exists text, format_event body = Ok text.
Proof.
  unfold format_event.
  destruct (format_event_try body) eqn:H; [by eexists | by eexists |].
  by apply format_event_try_modelled in H.
Qed.


(** What the outer [try] computes for a body that decodes to a dict. *)
Lemma format_event_try_dict (body : pystr) (fields : list (pystr * json)) :
  loads body = Ok (JObj fields) ->
  format_event_try body =
    Ok (dumps float_text
          (JObj match dict_get (u "details") fields with
                | Some (JStr s) =>
                    match loads s with
                    | Ok v => dict_set (u "details") v fields
                    | _ => fields
                    end
                | _ => fields
                end)).
Proof.
  intros H. unfold format_event_try. rewrite H. simpl.
  destruct (dict_get (u "details") fields) as [d|] eqn:Hd.
  - rewrite bool_decide_true by (by eexists). simpl.
    destruct d as [| | | |s| |]; simpl; try done.
    unfold expand_details. simpl. rewrite Hd. simpl.
    by destruct (loads_cases s) as [[v ->]| ->].
  - rewrite bool_decide_false by (by intros [? ?]). done.
Qed.

(** C1. The display predicate holds exactly when the sent-timestamp is
    strictly greater than the process-start time and the identifier is not
    in the seen-set; for a sent-timestamp not after the start it is false
    whatever the identifier is. *)
Theorem should_display_spec (seen : gset pystr) (sent_ts : Z) :
  (forall i : pystr,
      exists b : bool,
        should_display seen sent_ts (JStr i) = Ok b
        /\ (b = true <-> (sent_ts > START_TIME)%Z /\ i ∉ seen))
  /\ (forall msg_id : json,
         (sent_ts <= START_TIME)%Z ->
         should_display seen sent_ts msg_id = Ok false).
Proof using START_TIME.
  unfold should_display. split.
  - intros i. destruct (Z.ltb_spec START_TIME sent_ts) as [Hlt|Hge].
    + eexists. split; [reflexivity|].
      rewrite bool_decide_eq_true. split.
      * intros Hi. split; [apply Z.lt_gt, Hlt | exact Hi].
      * intros [_ Hi]. exact Hi.
    + exists false. split; [reflexivity|]. split; [discriminate|].
      intros [Hgt _]. apply Z.gt_lt in Hgt.
      exfalso. exact (Z.lt_irrefl _ (Z.le_lt_trans _ _ _ Hge Hgt)).
  - intros msg_id Hle.
    destruct (Z.ltb_spec START_TIME sent_ts) as [Hlt|Hge]; [| reflexivity].
    exfalso. exact (Z.lt_irrefl _ (Z.le_lt_trans _ _ _ Hle Hlt)).
Qed.

(** C10. A body that decodes to a number, a boolean or [None] comes back
    verbatim: the membership test raises and the outer handler returns the
    body; only a container or a string at top level reaches the
    pretty-printer. *)
Theorem format_event_scalar (body : pystr) :
  (forall v : json,
      loads body = Ok v -> is_scalar v = true ->
      format_event_try body = Raise TypeError /\ format_event body = Ok body)
  /\ (forall text : pystr,
         format_event_try body = Ok text ->
         exists v : json, loads body = Ok v /\ is_scalar v = false).
Proof.
  split.
  - intros v Hv Hs. unfold format_event.
    assert (format_event_try body = Raise TypeError) as ->; [| done].
    unfold format_event_try. rewrite Hv. by destruct v.
  - intros text H. unfold format_event_try in H.
    destruct (loads body) as [v| |]; simpl in H; try discriminate.
    exists v. split; [done|]. by destruct v.
Qed.

(** C3. A [details] field holding a string is replaced by the parse of
    the string when it is valid JSON and left as the string when it is
    not; the two bodies of the specification render accordingly. *)
Theorem format_event_details :
  (forall (body : pystr) (fields : list (pystr * json)) (s : pystr),
      loads body = Ok (JObj fields) ->
      dict_get (u "details") fields = Some (JStr s) ->
      (forall v : json,
          loads s = Ok v ->
          format_event body
          = Ok (dumps float_text (JObj (dict_set (u "details") v fields))))
      /\ (forall e : exn,
             loads s = Raise e ->
             format_event body = Ok (dumps float_text (JObj fields))))
  /\ format_event body_nested
     = Ok (dumps float_text
             (JObj [(u "a", JInt 1);
                    (u "details", JObj [(u "b", JInt 2)])]))
  /\ format_event body_nested
     = Ok (unlines [uq "{";
                    uq "  'a': 1,";
                    uq "  'details': {";
                    uq "    'b': 2";
                    uq "  }";
                    uq "}"])
  /\ format_event body_plain
     = Ok (dumps float_text
             (JObj [(u "a", JInt 1); (u "details", JStr (u "not-json"))]))
  /\ format_event body_plain
     = Ok (unlines [uq "{";
                    uq "  'a': 1,";
                    uq "  'details': 'not-json'";
                    uq "}"]).
Proof.
  split; [| repeat split; vm_compute; reflexivity].
  intros body fields s Hbody Hd.
  unfold format_event. rewrite (format_event_try_dict _ _ Hbody), Hd.
  split; [intros v -> | intros e ->]; reflexivity.
Qed.


Lemma handle_message_effect (msg : json) (st : state) :
  match display_test msg st with
  | Ok true =>
      exists i : pystr,
        py_getitem msg (u "MessageId") = Ok (JStr i)
        /\ SEEN (handle_message msg st).2 = {[i]} ∪ SEEN st
        /\ clock (handle_message msg st).2 = S (clock st)
        /\ exists lines : list pystr,
             trace (handle_message msg st).2
             = trace st ++ Stdout (header (clock st)) :: map Stdout lines
  | Ok false => handle_message msg st = (Ok tt, st)
  | Raise e => handle_message msg st = (Raise e, st)
  | Unmodelled => handle_message msg st = (Unmodelled, st)
  end.
Proof.
  unfold display_test, handle_message, mbind, lift, get_seen.
  destruct (py_getitem msg (u "MessageId")) as [msg_id| |]; cbn; try done.
  destruct (py_getitem msg (u "Attributes")) as [attributes| |];
    cbn; try done.
  destruct (py_getitem attributes (u "SentTimestamp")) as [sent| |];
    cbn; try done.
  destruct (py_int sent) as [sent_ts| |]; cbn; try done.
  destruct (should_display (SEEN st) sent_ts msg_id) as [[]| |] eqn:Hd;
    cbn; try done.
  unfold should_display in Hd.
  destruct (START_TIME <? sent_ts)%Z; [| discriminate].
  destruct msg_id as [| | | |i| |]; try discriminate.
  exists i. split; [done|]. cbn.
  destruct (py_getitem msg (u "Body")) as [body| |]; cbn;
    [| by repeat split; exists [] | by repeat split; exists []].
  destruct (match body with JStr b => format_event b | _ => Unmodelled end)
    as [text| |]; cbn;
    [| by repeat split; exists [] | by repeat split; exists []].
  repeat split. exists [text; []]. by rewrite <- !app_assoc.
Qed.

Lemma handle_message_view (msg : json) (i : pystr) (sent_ts : Z) (b : pystr)
    (st : state) :
  message_view msg = Some (i, sent_ts, b) ->
  display_test msg st = should_display (SEEN st) sent_ts (JStr i)
  /\ handle_message msg st
     = (Ok tt,
        if (START_TIME <? sent_ts)%Z && bool_decide (i ∉ SEEN st)
        then displayed i b st else st).
Proof.
  unfold message_view, display_test, handle_message, mbind, lift, get_seen.
  destruct (py_getitem msg (u "MessageId")) as [[| | | |i'| |]| |];
    try discriminate.
  destruct (py_getitem msg (u "Attributes")) as [attributes| |];
    cbn; try discriminate.
  destruct (py_getitem attributes (u "SentTimestamp")) as [sent| |];
    cbn; try discriminate.
  destruct (py_int sent) as [ts| |]; cbn; try discriminate.
  destruct (py_getitem msg (u "Body")) as [[| | | |b'| |]| |];
    try discriminate.
  intros [= -> -> ->]. split; [done|].
  unfold should_display. destruct (START_TIME <? sent_ts)%Z; cbn; [| done].
  destruct (bool_decide (i ∉ SEEN st)); cbn; [| done].
  unfold displayed, render.
  destruct (format_event_total b) as [text ->]. unfold print, emit. cbn.
  by rewrite <- !app_assoc.
Qed.

(** ** Frame lemmas *)

Lemma extends_refl (P : action -> Prop) (st : state) : extends P st st.
Proof. split; [done|]. exists []. by rewrite app_nil_r. Qed.

Lemma extends_trans (P : action -> Prop) (st1 st2 st3 : state) :
  extends P st1 st2 -> extends P st2 st3 -> extends P st1 st3.
Proof.
  intros [Hs1 (a1 & Ht1 & Hp1)] [Hs2 (a2 & Ht2 & Hp2)]. split.
  - set_solver.
  - exists (a1 ++ a2). rewrite Ht2, Ht1, app_assoc. split; [done|].
    by apply Forall_app.
Qed.

Lemma extends_weaken (P Q : action -> Prop) (st st' : state) :
  (forall a, P a -> Q a) -> extends P st st' -> extends Q st st'.
Proof.
  intros HPQ [Hs (acts & Ht & Hp)]. split; [done|]. exists acts.
  split; [done|]. eapply Forall_impl; eauto.
Qed.

Lemma keeps_ret (P : action -> Prop) {A} (a : A) : keeps P (ret a).
Proof. intros st. apply extends_refl. Qed.

Lemma keeps_raise (P : action -> Prop) {A} (e : exn) : keeps P (@raise A e).
Proof. intros st. apply extends_refl. Qed.

Lemma keeps_lift (P : action -> Prop) {A} (r : result A) : keeps P (lift r).
Proof. intros st. apply extends_refl. Qed.

Lemma keeps_get_seen (P : action -> Prop) : keeps P get_seen.
Proof. intros st. apply extends_refl. Qed.

Lemma keeps_emit (P : action -> Prop) (a : action) : P a -> keeps P (emit a).
Proof.
  intros Ha st. split; [done|]. exists [a]. split; [done|].
  by apply Forall_cons.
Qed.

Lemma keeps_bind (P : action -> Prop) {A B} (m : M A) (k : A -> M B) :
  keeps P m -> (forall a, keeps P (k a)) -> keeps P (mbind m k).
Proof.
  intros Hm Hk st. unfold mbind. specialize (Hm st).
  destruct (m st) as [[a|e|] st']; simpl in *; [| done | done].
  eapply extends_trans; [exact Hm | apply Hk].
Qed.

Lemma keeps_now (P : action -> Prop) : keeps P now.
Proof. intros st. split; [done|]. exists []. by rewrite app_nil_r. Qed.

Lemma keeps_seen_add (P : action -> Prop) (msg_id : json) :
  keeps P (seen_add msg_id).
Proof.
  destruct msg_id; try apply keeps_raise; try apply keeps_lift.
  intros st. split; [simpl; set_solver|]. exists []. by rewrite app_nil_r.
Qed.

Lemma keeps_for_each (P : action -> Prop) {A} (f : A -> M unit) (l : list A) :
  (forall x, keeps P (f x)) -> keeps P (for_each f l).
Proof.
  intros Hf. induction l as [|x l IH]; simpl.
  - apply keeps_ret.
  - apply keeps_bind; [apply Hf | intros _; exact IH].
Qed.

Lemma keeps_handle_message (msg : json) : keeps is_stdout (handle_message msg).
Proof.
  unfold handle_message, log, print.
  repeat first
    [ apply keeps_lift | apply keeps_get_seen | apply keeps_ret
    | apply keeps_now | apply keeps_seen_add
    | apply keeps_emit; exact I
    | apply keeps_bind; [| intros ?]
    | match goal with |- keeps _ (if ?b then _ else _) => destruct b end ].
Qed.

Lemma keeps_process_response (response : json) :
  keeps is_stdout (process_response response).
Proof.
  unfold process_response.
  apply keeps_bind; [apply keeps_lift | intros [|]; [| apply keeps_ret]].
  apply keeps_bind; [apply keeps_lift | intros messages].
  apply keeps_bind; [apply keeps_lift | intros msgs].
  apply keeps_for_each, keeps_handle_message.
Qed.

Lemma keeps_run_aws (P : action -> Prop) (args : list pystr) (a : answer) :
  P (Spawn ([u "awslocal"; u "sqs"] ++ args
              ++ [u "--region"; REGION; u "--output"; u "json"])) ->
  keeps P (run_aws args a).
Proof.
  intros HP. unfold run_aws.
  apply keeps_bind; [by apply keeps_emit | intros _].
  destruct a as [returncode stdout|]; [| apply keeps_raise].
  destruct (returncode =? 0)%Z; [| apply keeps_ret].
  destruct (loads stdout) as [v|[]|];
    first [apply keeps_ret | apply keeps_raise | apply keeps_lift].
Qed.

Lemma keeps_sleep (P : action -> Prop) (interrupted : bool) :
  P (Sleep 100) -> keeps P (sleep interrupted).
Proof.
  intros HP. unfold sleep.
  apply keeps_bind; [by apply keeps_emit | intros _].
  destruct interrupted; [apply keeps_raise | apply keeps_ret].
Qed.

Lemma keeps_stdout (P : action -> Prop) {A} (m : M A) :
  (forall text, P (Stdout text)) -> keeps is_stdout m -> keeps P m.
Proof.
  intros HP Hm st. eapply extends_weaken; [| apply Hm].
  intros [| |]; simpl; try done.
Qed.

Lemma keeps_iteration (queue_url : json) (r : round) :
  keeps (is_loop_action queue_url) (iteration queue_url r).
Proof.
  unfold iteration. apply keeps_bind; [| intros response].
  - destruct queue_url as [| | | |q| |]; try apply keeps_raise.
    apply keeps_run_aws. by exists q.
  - apply keeps_bind; [| intros _; by apply keeps_sleep].
    apply keeps_stdout; [done | apply keeps_process_response].
Qed.

Lemma keeps_loop (queue_url : json) (rounds : list round) :
  keeps (is_loop_action queue_url) (loop queue_url rounds).
Proof.
  induction rounds as [|r rounds IH]; simpl; [apply keeps_ret|].
  apply keeps_bind; [apply keeps_iteration | intros _; exact IH].
Qed.

Lemma keeps_except_interrupt (P : action -> Prop) {A} (m handler : M A) :
  keeps P m -> keeps P handler -> keeps P (except_interrupt m handler).
Proof.
  intros Hm Hh st. unfold except_interrupt. specialize (Hm st).
  destruct (m st) as [[a|[]|] st']; simpl in *; try done.
  eapply extends_trans; [exact Hm | apply Hh].
Qed.

Lemma keeps_main (startup : answer) (rounds : list round) :
  keeps is_main_action (main startup rounds).
Proof.
  unfold main, log, print.
  apply keeps_bind; [by apply keeps_emit | intros _].
  apply keeps_bind; [apply keeps_run_aws; by left | intros response].
  apply keeps_bind; [apply keeps_lift | intros found].
  destruct (negb found).
  - apply keeps_bind; [by apply keeps_emit | intros _; apply keeps_raise].
  - apply keeps_bind; [apply keeps_lift | intros queue_url].
    apply keeps_bind; [apply keeps_now | intros start_time_str].
    apply keeps_bind; [by apply keeps_emit | intros _].
    apply keeps_except_interrupt.
    + intros st. eapply extends_weaken; [| apply keeps_loop].
      intros [argv| |]; simpl; try done. intros (q & _ & ->). right. by exists q.
    + apply keeps_bind; [by apply keeps_emit | intros _; apply keeps_ret].
Qed.

(** ** The seen-set outside the loop body *)

Lemma seen_bind {A B} (m : M A) (k : A -> M B) :
  (forall st, SEEN (m st).2 = SEEN st) ->
  (forall a st, SEEN (k a st).2 = SEEN st) ->
  forall st, SEEN (mbind m k st).2 = SEEN st.
Proof.
  intros Hm Hk st. unfold mbind. specialize (Hm st).
  destruct (m st) as [[a|e|] st']; simpl in *; [| done | done].
  by rewrite Hk.
Qed.

Lemma seen_run_aws (args : list pystr) (a : answer) (st : state) :
  SEEN (run_aws args a st).2 = SEEN st.
Proof.
  unfold run_aws. apply seen_bind; [done | intros _ st'].
  destruct a as [returncode stdout|]; [| done].
  destruct (returncode =? 0)%Z; [| done].
  by destruct (loads stdout) as [v|[]|].
Qed.

Lemma seen_main_before_loop (startup : answer) (st : state) :
  SEEN (main startup [] st).2 = SEEN st.
Proof.
  unfold main, log, print.
  apply seen_bind; [done | intros _ st1].
  apply seen_bind; [apply seen_run_aws | intros response st2].
  apply seen_bind; [done | intros found st3].
  destruct (negb found).
  - apply seen_bind; [done | done].
  - apply seen_bind; [done | intros queue_url st4].
    apply seen_bind; [done | intros start_time_str st5].
    apply seen_bind; [done | intros _ st6]. done.
Qed.

(** C9. The seen-set is empty at launch and still empty when the loop is
    entered; no iteration removes an identifier from it; and handling a
    message adds its identifier exactly when the display test held, which
    is exactly when the message's header is printed. *)
Theorem seen_grows :
  SEEN initial_state = ∅
  /\ (forall startup : answer, SEEN (run startup []).2 = ∅)
  /\ (forall (queue_url : json) (r : round) (st : state),
         SEEN st ⊆ SEEN (iteration queue_url r st).2)
  /\ (forall (queue_url : json) (rounds : list round) (st : state),
         SEEN st ⊆ SEEN (loop queue_url rounds st).2)
  /\ (forall (msg : json) (st : state),
         (display_test msg st = Ok true ->
          exists i : pystr,
            py_getitem msg (u "MessageId") = Ok (JStr i)
            /\ (i ∉ SEEN st)
            /\ SEEN (handle_message msg st).2 = {[i]} ∪ SEEN st
            /\ exists lines : list pystr,
                 trace (handle_message msg st).2
                 = trace st ++ Stdout (header (clock st)) :: map Stdout lines)
         /\ (display_test msg st <> Ok true ->
             (handle_message msg st).2 = st)).
Proof.
  split; [done|]. split; [| split; [| split]].
  - intros startup. unfold run.
    pose proof (seen_main_before_loop startup initial_state) as H.
    by destruct (main startup [] initial_state).
  - intros queue_url r st. apply (keeps_iteration queue_url r st).
  - intros queue_url rounds st. apply (keeps_loop queue_url rounds st).
  - intros msg st. pose proof (handle_message_effect msg st) as H. split.
    + intros Ht. rewrite Ht in H.
      destruct H as (i & Hid & Hseen & _ & Htrace).
      exists i. split; [done|]. split; [| done].
      unfold display_test in Ht. rewrite Hid in Ht. cbn in Ht.
      destruct (py_getitem msg (u "Attributes")) as [attributes| |];
        cbn in Ht; try discriminate.
      destruct (py_getitem attributes (u "SentTimestamp")) as [sent| |];
        cbn in Ht; try discriminate.
      destruct (py_int sent) as [sent_ts| |]; cbn in Ht; try discriminate.
      unfold should_display in Ht.
      destruct (START_TIME <? sent_ts)%Z; [| discriminate].
      injection Ht as Ht. by apply bool_decide_eq_true in Ht.
    + intros Hf. destruct (display_test msg st) as [[]| |];
        [done | | |]; by rewrite H.
Qed.

(** C8. Every command the process spawns is the queue resolution or a
    receive-message call with the fixed parameters (at most 10 messages,
    5 seconds of long poll, visibility timeout 0, the SentTimestamp
    attribute), and an iteration spawns nothing but that call on its
    queue: no command that deletes or changes messages is ever issued. *)
Theorem only_receive_message :
  (forall (startup : answer) (rounds : list round) (argv : list pystr),
      Spawn argv ∈ trace (run startup rounds).2 ->
      argv = [u "awslocal"; u "sqs"; u "get-queue-url";
              u "--queue-name"; u "audit-queue";
              u "--region"; u "eu-west-2"; u "--output"; u "json"]
      \/ exists q : pystr,
           argv = [u "awslocal"; u "sqs"; u "receive-message";
                   u "--queue-url"; q;
                   u "--max-number-of-messages"; u "10";
                   u "--wait-time-seconds"; u "5";
                   u "--visibility-timeout"; u "0";
                   u "--attribute-names"; u "SentTimestamp";
                   u "--region"; u "eu-west-2"; u "--output"; u "json"])
  /\ (forall (queue_url : json) (r : round) (st : state) (argv : list pystr),
         Spawn argv ∈ trace (iteration queue_url r st).2 ->
         Spawn argv ∈ trace st
         \/ exists q : pystr,
              queue_url = JStr q
              /\ argv = [u "awslocal"; u "sqs"; u "receive-message";
                         u "--queue-url"; q;
                         u "--max-number-of-messages"; u "10";
                         u "--wait-time-seconds"; u "5";
                         u "--visibility-timeout"; u "0";
                         u "--attribute-names"; u "SentTimestamp";
                         u "--region"; u "eu-west-2"; u "--output"; u "json"]).
Proof.
  split.
  - intros startup rounds argv Hin. unfold run in Hin.
    destruct (keeps_main startup rounds initial_state)
      as [_ (acts & Ht & Hacts)].
    destruct (main startup rounds initial_state) as [res st]. cbn in *.
    rewrite Ht in Hin. cbn in Hin.
    rewrite Forall_forall in Hacts. apply Hacts in Hin. exact Hin.
  - intros queue_url r st argv Hin.
    destruct (keeps_iteration queue_url r st) as [_ (acts & Ht & Hacts)].
    rewrite Ht in Hin. apply elem_of_app in Hin as [Hin|Hin]; [by left|].
    right. rewrite Forall_forall in Hacts. apply Hacts in Hin. exact Hin.
Qed.

(** ** Running the pieces *)

Lemma mbind_ok {A B} (m : M A) (k : A -> M B) (st st' : state) (a : A) :
  m st = (Ok a, st') -> mbind m k st = k a st'.
Proof. intros H. unfold mbind. by rewrite H. Qed.


Lemma run_aws_finished (args : list pystr) (returncode : Z) (stdout : pystr)
    (st : state) :
  run_aws args (Finished returncode stdout) st
  = (Ok (response_of returncode stdout),
     after st [Spawn ([u "awslocal"; u "sqs"] ++ args
                        ++ [u "--region"; REGION; u "--output"; u "json"])]).
Proof.
  unfold run_aws, response_of, mbind, emit. cbn.
  destruct (returncode =? 0)%Z; [| done].
  by destruct (loads_cases stdout) as [[v ->]| ->].
Qed.

Lemma run_aws_interrupted (args : list pystr) (st : state) :
  run_aws args Interrupted st
  = (Raise KeyboardInterrupt,
     after st [Spawn ([u "awslocal"; u "sqs"] ++ args
                        ++ [u "--region"; REGION; u "--output"; u "json"])]).
Proof. reflexivity. Qed.

Lemma response_of_failed (returncode : Z) (stdout : pystr) :
  returncode <> 0%Z \/ loads stdout = Raise JSONDecodeError ->
  response_of returncode stdout = JNull.
Proof.
  unfold response_of. intros [Hrc|Hbad].
  - destruct (Z.eqb_spec returncode 0); done.
  - rewrite Hbad. by destruct (returncode =? 0)%Z.
Qed.

(** C5. When the queue resolution fails, because the client exits
    non-zero or its output is not JSON, the process prints the error line
    and ends with status 1; whatever rounds the environment had in store,
    nothing of the loop happens: the trace is the banner, the resolution
    command and the error line. *)
Theorem resolution_failure_exits (returncode : Z) (stdout : pystr)
    (rounds : list round) :
  returncode <> 0%Z \/ loads stdout = Raise JSONDecodeError ->
  run (Finished returncode stdout) rounds
  = (Exited 1,
     {| SEEN := ∅;
        trace := [Stdout banner;
                  Spawn get_queue_url_argv;
                  Stdout not_found_line];
        clock := 0 |}).
Proof.
  intros Hfail. unfold run, main.
  erewrite mbind_ok by reflexivity.
  erewrite mbind_ok by apply run_aws_finished.
  rewrite (response_of_failed _ _ Hfail).
  reflexivity.
Qed.

Lemma process_response_messages (response : json) (msgs : list json)
    (st : state) :
  response_messages response = Some msgs ->
  process_response response st = for_each handle_message msgs st.
Proof.
  unfold response_messages, process_response, mbind, lift.
  destruct (truthy response) as [[|]| |]; try discriminate.
  - destruct (py_get response (u "Messages") (JArr [])) as [messages| |];
      cbn; try discriminate.
    destruct (py_iter messages) as [l| |]; try discriminate.
    by intros [= ->].
  - by intros [= <-].
Qed.

Lemma well_shaped_messages (response : json) :
  well_shaped response = true ->
  exists msgs : list json,
    response_messages response = Some msgs
    /\ Forall (fun m => is_Some (message_view m)) msgs.
Proof.
  unfold well_shaped. destruct (response_messages response) as [msgs|];
    [| discriminate].
  intros H. exists msgs. split; [done|].
  rewrite forallb_forall in H. apply Forall_forall. intros m Hm.
  apply list_elem_of_In, H in Hm. by apply bool_decide_eq_true in Hm.
Qed.

Lemma for_each_views (msgs : list json) (st : state) :
  Forall (fun m => is_Some (message_view m)) msgs ->
  exists st' : state, for_each handle_message msgs st = (Ok tt, st').
Proof.
  intros H. revert st. induction H as [|m msgs [[[i ts] b] Hm] _ IH];
    intros st; simpl; [by eexists|].
  destruct (handle_message_view _ _ _ _ st Hm) as [_ Hh].
  erewrite mbind_ok by exact Hh. apply IH.
Qed.






(** ** Counting displays *)



Lemma has_id_getitem (i : pystr) (msg : json) :
  has_id i msg = true <-> py_getitem msg (u "MessageId") = Ok (JStr i).
Proof.
  unfold has_id. destruct (py_getitem msg (u "MessageId")) as [v| |];
    [| done | done].
  destruct v; cbn; try done. unfold pystr_eqb.
  rewrite bool_decide_eq_true. split; [by intros -> | by intros [= ->]].
Qed.
















(** ** More on [format_event] *)

Lemma is_prefix_spec (p s : pystr) :
  is_prefix p s = true <-> exists post : pystr, s = p ++ post.
Proof.
  revert s. induction p as [|a p IH]; intros s; cbn [is_prefix].
  - split; [intros _; by exists s | done].
  - destruct s as [|b s].
    + split; [discriminate | by intros [post Hpost]].
    + rewrite andb_true_iff, N.eqb_eq, IH. split.
      * intros [-> [post ->]]. by exists post.
      * intros [post [= -> ->]]. split; [done | by exists post].
Qed.

Lemma is_substring_spec (p s : pystr) :
  is_substring p s = true <-> exists pre post : pystr, s = pre ++ p ++ post.
Proof.
  induction s as [|b s IH].
  - cbn [is_substring]. rewrite orb_false_r, is_prefix_spec. split.
    + intros [post Hpost]. by exists [], post.
    + intros (pre & post & H). symmetry in H.
      apply app_eq_nil in H as [-> H]. apply app_eq_nil in H as [-> _].
      by exists [].
  - cbn [is_substring]. fold (is_substring p s).
    rewrite orb_true_iff, is_prefix_spec, IH. split.
    + intros [[post Hpost]|(pre & post & ->)].
      * by exists [], post.
      * by exists (b :: pre), post.
    + intros ([|c pre] & post & H).
      * left. by exists post.
      * right. injection H as -> ->. by exists pre, post.
Qed.

Lemma existsb_is_str (key : pystr) (items : list json) :
  existsb (fun x => is_str x key) items = true <-> JStr key ∈ items.
Proof.
  rewrite existsb_exists. split.
  - intros (x & Hin & Hx). apply list_elem_of_In in Hin.
    destruct x; try discriminate. cbn in Hx. unfold pystr_eqb in Hx.
    apply bool_decide_eq_true in Hx. by subst.
  - intros Hin. exists (JStr key). split; [by apply list_elem_of_In|].
    cbn. unfold pystr_eqb. by apply bool_decide_eq_true.
Qed.

Lemma dict_get_set_eq (k : pystr) (v : json) (d : list (pystr * json)) :
  dict_get k (dict_set k v d) = Some v.
Proof.
  induction d as [|[k' v'] d IH]; cbn.
  - unfold pystr_eqb. by rewrite bool_decide_true.
  - destruct (pystr_eqb k k') eqn:E; cbn; rewrite E; [done | exact IH].
Qed.

Lemma dict_get_set_ne (k k' : pystr) (v : json) (d : list (pystr * json)) :
  k' <> k -> dict_get k' (dict_set k v d) = dict_get k' d.
Proof.
  intros Hne. induction d as [|[k0 v0] d IH]; cbn.
  - unfold pystr_eqb. by rewrite bool_decide_false.
  - destruct (pystr_eqb k k0) eqn:E; cbn; [| by rewrite IH].
    unfold pystr_eqb in *. apply bool_decide_eq_true in E. subst k0.
    by rewrite bool_decide_false.
Qed.

Lemma dict_set_keys (k : pystr) (v : json) (d : list (pystr * json)) :
  is_Some (dict_get k d) -> map fst (dict_set k v d) = map fst d.
Proof.
  induction d as [|[k0 v0] d IH]; cbn; [by intros [? ?]|].
  destruct (pystr_eqb k k0); cbn; [done|]. intros H. by rewrite IH.
Qed.

(** X1. A body that decodes to a list comes back verbatim when the list
    holds the string [details], and pretty-printed otherwise; a body that
    decodes to a string comes back verbatim when the word [details] occurs
    in it, and pretty-printed otherwise: the membership test succeeds on
    them and the subscript then raises. *)
Theorem format_event_list_or_string (body : pystr) :
  (forall items : list json,
      loads body = Ok (JArr items) ->
      (JStr (u "details") ∈ items -> format_event body = Ok body)
      /\ (JStr (u "details") ∉ items ->
          format_event body = Ok (dumps float_text (JArr items))))
  /\ (forall s : pystr,
         loads body = Ok (JStr s) ->
         ((exists pre post : pystr, s = pre ++ u "details" ++ post) ->
          format_event body = Ok body)
         /\ ((forall pre post : pystr, s <> pre ++ u "details" ++ post) ->
             format_event body = Ok (dumps float_text (JStr s)))).
Proof.
  split.
  - intros items Hb. unfold format_event, format_event_try. rewrite Hb.
    cbn [bind py_contains].
    destruct (existsb _ items) eqn:E.
    + split; [done|]. intros Hn. by apply existsb_is_str in E.
    + split; [| done]. intros Hin. apply existsb_is_str in Hin. congruence.
  - intros s Hb. unfold format_event, format_event_try. rewrite Hb.
    cbn [bind py_contains].
    destruct (is_substring (u "details") s) eqn:E.
    + split; [done|]. intros Hn.
      apply is_substring_spec in E as (pre & post & ->). by destruct (Hn pre post).
    + split; [| done]. intros Hs. apply is_substring_spec in Hs. congruence.
Qed.

(** X2. For a body that decodes to a dict, what is pretty-printed has the
    same keys in the same order, and every field but [details] has the
    value it had; [details] itself is left as it is unless it is a
    string. *)
Theorem format_event_keeps_fields (body : pystr)
    (fields : list (pystr * json)) :
  loads body = Ok (JObj fields) ->
  exists fields' : list (pystr * json),
    format_event body = Ok (dumps float_text (JObj fields'))
    /\ map fst fields' = map fst fields
    /\ (forall k : pystr,
           k <> u "details" -> dict_get k fields' = dict_get k fields)
    /\ ((forall s : pystr,
            dict_get (u "details") fields <> Some (JStr s)) ->
        fields' = fields).
Proof.
  intros Hb. unfold format_event. rewrite (format_event_try_dict _ _ Hb).
  eexists. split; [reflexivity|].
  destruct (dict_get (u "details") fields) as [d|] eqn:Hd; [| done].
  destruct d as [| | | |s| |]; try done.
  destruct (loads s) as [v| |]; try done.
  split; [apply dict_set_keys; by rewrite Hd|].
  split; [intros k Hk; by apply dict_get_set_ne|].
  intros Hn. by destruct (Hn s).
Qed.

(** ** Edge behaviour of the loop body *)

(** X3. A message sent at or before the launch is skipped whatever else it
    holds: its identifier is not looked up in the seen-set (so it may be
    of any type), its body is not read (so it may be missing), and the
    state is left as it was. *)
Theorem old_message_skipped (msg msg_id attributes sent : json) (sent_ts : Z)
    (st : state) :
  py_getitem msg (u "MessageId") = Ok msg_id ->
  py_getitem msg (u "Attributes") = Ok attributes ->
  py_getitem attributes (u "SentTimestamp") = Ok sent ->
  py_int sent = Ok sent_ts ->
  (sent_ts <= START_TIME)%Z ->
  handle_message msg st = (Ok tt, st).
Proof.
  intros Hid Ha Hs Hi Hle.
  unfold handle_message, mbind, lift, get_seen.
  rewrite Hid, Ha, Hs, Hi. unfold should_display.
  destruct (Z.ltb_spec START_TIME sent_ts) as [Hlt|_]; [| done].
  exfalso. exact (Z.lt_irrefl _ (Z.le_lt_trans _ _ _ Hle Hlt)).
Qed.

(** X4. A new message without a body is marked seen and its header is
    printed before the lookup of the body raises [KeyError]: the
    identifier stays in the seen-set although nothing of the message was
    shown. *)
Theorem missing_body_marks_seen (fields : list (pystr * json)) (i : pystr)
    (attributes sent : json) (sent_ts : Z) (st : state) :
  dict_get (u "MessageId") fields = Some (JStr i) ->
  dict_get (u "Attributes") fields = Some attributes ->
  py_getitem attributes (u "SentTimestamp") = Ok sent ->
  py_int sent = Ok sent_ts ->
  (START_TIME < sent_ts)%Z ->
  i ∉ SEEN st ->
  dict_get (u "Body") fields = None ->
  handle_message (JObj fields) st
  = (Raise KeyError,
     {| SEEN := {[i]} ∪ SEEN st;
        trace := trace st ++ [Stdout (header (clock st))];
        clock := S (clock st) |}).
Proof.
  intros Hid Ha Hs Hi Hlt Hfresh Hb.
  unfold handle_message, mbind, lift, get_seen. cbn [py_getitem].
  rewrite Hid, Ha, Hs, Hi, Hb. unfold should_display.
  apply Z.ltb_lt in Hlt. rewrite Hlt.
  rewrite bool_decide_true by done. reflexivity.
Qed.

(** ** What can be raised, and where *)

Lemma raises_ret (E : exn -> Prop) {A} (a : A) : raises E (ret a).
Proof. intros st e H. discriminate H. Qed.

Lemma raises_lift (E : exn -> Prop) {A} (r : result A) :
  (forall e, r = Raise e -> E e) -> raises E (lift r).
Proof. intros Hr st e H. by apply Hr. Qed.

Lemma raises_bind (E : exn -> Prop) {A B} (m : M A) (k : A -> M B) :
  raises E m -> (forall a, raises E (k a)) -> raises E (mbind m k).
Proof.
  intros Hm Hk st e. unfold mbind. specialize (Hm st).
  destruct (m st) as [[a|e'|] st']; cbn in *.
  - apply Hk.
  - intros [= <-]. by apply Hm.
  - discriminate.
Qed.

Lemma raises_weaken (E F : exn -> Prop) {A} (m : M A) :
  (forall e, E e -> F e) -> raises E m -> raises F m.
Proof. intros HEF Hm st e H. apply HEF. by eapply Hm. Qed.

Lemma py_getitem_raises (obj : json) (key : pystr) (e : exn) :
  py_getitem obj key = Raise e -> e = KeyError \/ e = TypeError.
Proof.
  destruct obj; cbn; try (intros [= <-]; by right).
  destruct (dict_get key fields); [discriminate|]. intros [= <-]. by left.
Qed.

Lemma py_int_raises (v : json) (e : exn) :
  py_int v = Raise e -> e = ValueError \/ e = TypeError.
Proof.
  destruct v; cbn; try discriminate; try (intros [= <-]; by right).
  destruct (forallb _ s); [| discriminate].
  destruct (int_of_str s); [discriminate|]. intros [= <-]. by left.
Qed.

Lemma raises_handle_message (msg : json) :
  raises data_error (handle_message msg).
Proof.
  unfold handle_message, log, print, data_error.
  apply raises_bind;
    [apply raises_lift; intros e [->| ->]%py_getitem_raises; auto
    | intros msg_id].
  apply raises_bind;
    [apply raises_lift; intros e [->| ->]%py_getitem_raises; auto
    | intros attributes].
  apply raises_bind;
    [apply raises_lift; intros e [->| ->]%py_getitem_raises; auto
    | intros sent].
  apply raises_bind;
    [apply raises_lift; intros e [->| ->]%py_int_raises; auto
    | intros sent_ts].
  apply raises_bind; [intros st e H; discriminate H | intros seen].
  apply raises_bind; [| intros [|]; [| apply raises_ret]].
  { apply raises_lift. intros e. unfold should_display.
    destruct (START_TIME <? sent_ts)%Z; [| discriminate].
    destruct msg_id; try discriminate; intros [= <-]; auto. }
  apply raises_bind; [| intros _].
  { destruct msg_id; intros st e; cbn; try discriminate;
      intros [= <-]; auto. }
  apply raises_bind; [intros st e H; discriminate H | intros timestamp].
  apply raises_bind; [intros st e H; discriminate H | intros _].
  apply raises_bind;
    [apply raises_lift; intros e [->| ->]%py_getitem_raises; auto
    | intros body].
  apply raises_bind; [| intros text].
  { apply raises_lift. intros e. destruct body; try discriminate.
    destruct (format_event_total s) as [text ->]. discriminate. }
  apply raises_bind; [intros st e H; discriminate H | intros _].
  intros st e H. discriminate H.
Qed.

Lemma raises_for_each (E : exn -> Prop) {A} (f : A -> M unit) (l : list A) :
  (forall x, raises E (f x)) -> raises E (for_each f l).
Proof.
  intros Hf. induction l as [|x l IH]; cbn [for_each].
  - apply raises_ret.
  - apply raises_bind; [apply Hf | intros _; exact IH].
Qed.

Lemma raises_process_response (response : json) :
  raises data_error (process_response response).
Proof.
  unfold process_response, data_error.
  apply raises_bind; [| intros [|]; [| apply raises_ret]].
  { apply raises_lift. intros e. by destruct response. }
  apply raises_bind; [| intros messages].
  { apply raises_lift. intros e.
    destruct response; cbn; try (intros [= <-]; auto).
    by destruct (dict_get _ _). }
  apply raises_bind; [| intros msgs].
  { apply raises_lift. intros e.
    destruct messages; cbn; try discriminate; intros [= <-]; auto. }
  apply raises_for_each, raises_handle_message.
Qed.

(** An iteration raises a data error, or the interrupt that arrived. *)
Lemma raises_iteration (queue_url : json) (r : round) :
  raises (fun e => data_error e
                   \/ (e = KeyboardInterrupt /\ interrupted r = true
                       /\ exists q, queue_url = JStr q))
         (iteration queue_url r).
Proof.
  unfold iteration.
  destruct queue_url as [| | | |q| |];
    try (intros st e [= <-]; left; unfold data_error; auto).
  apply raises_bind; [| intros response].
  - intros st e. destruct r as [[returncode stdout|] interrupt].
    + cbn [poll]. rewrite run_aws_finished. discriminate.
    + cbn [poll]. rewrite run_aws_interrupted. intros [= <-].
      right. split; [done|]. split; [done | by exists q].
  - apply raises_bind; [| intros _].
    + eapply raises_weaken; [| apply raises_process_response]. auto.
    + unfold sleep. apply raises_bind; [intros st e H; discriminate H|].
      intros _ st e. destruct (sleep_interrupted r) eqn:Hs; [| discriminate].
      intros [= <-]. right. split; [done|]. split; [| by exists q].
      unfold interrupted. rewrite Hs. by destruct (poll r).
Qed.

Lemma raises_loop (queue_url : json) (rounds : list round) :
  raises (fun e => data_error e
                   \/ (e = KeyboardInterrupt
                       /\ existsb interrupted rounds = true
                       /\ exists q, queue_url = JStr q))
         (loop queue_url rounds).
Proof.
  induction rounds as [|r rounds IH]; cbn [loop existsb].
  - apply raises_ret.
  - apply raises_bind; [| intros _].
    + eapply raises_weaken; [| apply raises_iteration].
      intros e [He|(-> & -> & Hq)]; [by left | by right].
    + eapply raises_weaken; [| exact IH].
      intros e [He|(-> & -> & Hq)]; [by left | right].
      by rewrite orb_true_r.
Qed.


Lemma loop_result (queue_url : json) (rounds : list round) (st : state) :
  (loop queue_url rounds st).1 <> Ok Returned.
Proof.
  revert st. induction rounds as [|r rounds IH]; intros st; [done|].
  cbn [loop]. unfold mbind.
  destruct (iteration queue_url r st) as [[[]|e|] st']; [apply IH | done..].
Qed.

(** The part of [main] after the loop was entered. *)
Lemma run_loop (returncode : Z) (stdout : pystr) (queue_url : json)
    (rounds : list round) :
  truthy (response_of returncode stdout) = Ok true ->
  py_getitem (response_of returncode stdout) (u "QueueUrl") = Ok queue_url ->
  run (Finished returncode stdout) rounds
  = match loop queue_url rounds loop_entry with
    | (Raise KeyboardInterrupt, st) =>
        (Exited 0, after st [Stdout stopped_line])
    | (res, st) => (classify res, st)
    end.
Proof.
  intros Ht Hq. unfold run, main.
  erewrite mbind_ok by reflexivity.
  erewrite mbind_ok by apply run_aws_finished.
  rewrite Ht, Hq.
  erewrite mbind_ok by reflexivity. cbn [negb].
  erewrite mbind_ok by reflexivity.
  erewrite mbind_ok by reflexivity.
  erewrite mbind_ok by reflexivity.
  match goal with
  | |- context [except_interrupt _ _ ?s] => change s with loop_entry
  end.
  unfold except_interrupt.
  by destruct (loop queue_url rounds loop_entry) as [[?|[]|] st].
Qed.

Lemma run_failed (returncode : Z) (stdout : pystr) (rounds : list round) :
  truthy (response_of returncode stdout) = Ok false ->
  run (Finished returncode stdout) rounds
  = (Exited 1,
     {| SEEN := ∅;
        trace := [Stdout banner; Spawn get_queue_url_argv;
                  Stdout not_found_line];
        clock := 0 |}).
Proof.
  intros Ht. unfold run, main.
  erewrite mbind_ok by reflexivity.
  erewrite mbind_ok by apply run_aws_finished.
  rewrite Ht. reflexivity.
Qed.

Lemma run_no_queue_url (returncode : Z) (stdout : pystr) (e : exn)
    (rounds : list round) :
  truthy (response_of returncode stdout) = Ok true ->
  py_getitem (response_of returncode stdout) (u "QueueUrl") = Raise e ->
  run (Finished returncode stdout) rounds
  = (Uncaught e,
     {| SEEN := ∅;
        trace := [Stdout banner; Spawn get_queue_url_argv];
        clock := 0 |}).
Proof.
  intros Ht Hq. unfold run, main.
  erewrite mbind_ok by reflexivity.
  erewrite mbind_ok by apply run_aws_finished.
  rewrite Ht, Hq.
  by destruct (py_getitem_raises _ _ _ Hq) as [-> | ->].
Qed.


(** X6. The process ends with status 0 only after an interrupt that
    arrived in a round of the loop, the queue having been resolved; the
    status line is then the last thing printed. *)
Theorem exit_status_zero (startup : answer) (rounds : list round) :
  (run startup rounds).1 = Exited 0 ->
  (exists q : pystr, resolved startup q = true)
  /\ existsb interrupted rounds = true
  /\ exists before : list action,
       trace (run startup rounds).2 = before ++ [Stdout stopped_line].
Proof.
  destruct startup as [returncode stdout|]; [| discriminate].
  destruct (truthy (response_of returncode stdout)) as [[|]| |] eqn:Ht.
  - destruct (py_getitem (response_of returncode stdout) (u "QueueUrl"))
      as [queue_url|e|] eqn:Hq.
    + rewrite (run_loop _ _ _ _ Ht Hq).
      pose proof (raises_loop queue_url rounds loop_entry) as Hr.
      pose proof (loop_result queue_url rounds loop_entry) as Hn.
      destruct (loop queue_url rounds loop_entry) as [[[]|e|] st];
        cbn in *; try done.
      destruct (Hr e eq_refl)
        as [[->|[->|[->| ->]]]|(-> & Hint & q & ->)]; try done.
      intros _. split; [| split; [done | by eexists]].
      exists q. unfold resolved. rewrite Ht, Hq. unfold pystr_eqb.
      by apply bool_decide_eq_true.
    + rewrite (run_no_queue_url _ _ _ _ Ht Hq). discriminate.
    + unfold run, main.
      erewrite mbind_ok by reflexivity.
      erewrite mbind_ok by apply run_aws_finished.
      rewrite Ht, Hq. discriminate.
  - rewrite (run_failed _ _ _ Ht). discriminate.
  - by destruct (response_of returncode stdout).
  - unfold run, main.
    erewrite mbind_ok by reflexivity.
    erewrite mbind_ok by apply run_aws_finished.
    rewrite Ht. discriminate.
Qed.

(** X7. When the resolution response decodes to something truthy that
    has no [QueueUrl] to give (an object without the key, or a value that
    is not an object), the process ends before the loop with the
    [KeyError] or [TypeError] of the subscript: after the banner and the
    resolution command, nothing is printed or spawned. *)
Theorem resolution_without_queue_url (returncode : Z) (stdout : pystr)
    (rounds : list round) :
  truthy (response_of returncode stdout) = Ok true ->
  (forall v : json,
      py_getitem (response_of returncode stdout) (u "QueueUrl") <> Ok v) ->
  exists e : exn,
    (e = KeyError \/ e = TypeError)
    /\ run (Finished returncode stdout) rounds
       = (Uncaught e,
          {| SEEN := ∅;
             trace := [Stdout banner; Spawn get_queue_url_argv];
             clock := 0 |}).
Proof.
  intros Ht Hq.
  destruct (py_getitem (response_of returncode stdout) (u "QueueUrl"))
    as [v|e|] eqn:Hg.
  - by destruct (Hq v).
  - exists e. split; [by eapply py_getitem_raises|].
    by apply run_no_queue_url.
  - destruct (response_of returncode stdout); cbn in Hg; try discriminate.
    by destruct (dict_get _ _).
Qed.


Lemma run_unmodelled (returncode : Z) (stdout : pystr) (rounds : list round) :
  truthy (response_of returncode stdout) = Unmodelled ->
  run (Finished returncode stdout) rounds
  = (NotModelled,
     {| SEEN := ∅;
        trace := [Stdout banner; Spawn get_queue_url_argv];
        clock := 0 |}).
Proof.
  intros Ht. unfold run, main.
  erewrite mbind_ok by reflexivity.
  erewrite mbind_ok by apply run_aws_finished.
  rewrite Ht. reflexivity.
Qed.


(** ** What the seen-set holds, and what was printed for it *)

Lemma seen_for_each_views (msgs : list json) (st : state) (i : pystr) :
  Forall (fun m => is_Some (message_view m)) msgs ->
  i ∈ SEEN (for_each handle_message msgs st).2
  <-> i ∈ SEEN st
      \/ exists (msg : json) (sent_ts : Z) (b : pystr),
           msg ∈ msgs /\ message_view msg = Some (i, sent_ts, b)
           /\ (START_TIME < sent_ts)%Z.
Proof.
  intros H. revert st.
  induction H as [|msg msgs [[[i' ts'] b'] Hview] _ IH]; intros st.
  - cbn. split; [by left|]. intros [Hi|(msg & ? & ? & Hin & _)]; [done|].
    by apply elem_of_nil in Hin.
  - cbn [for_each].
    destruct (handle_message_view _ _ _ _ st Hview) as [_ Hh].
    erewrite mbind_ok by exact Hh. rewrite IH. clear IH Hh.
    destruct (Z.ltb_spec START_TIME ts') as [Hlt|Hge]; cbn [andb].
    + destruct (bool_decide (i' ∉ SEEN st)) eqn:Hf.
      * cbn. rewrite elem_of_union, elem_of_singleton. split.
        -- intros [[->|Hi]|(m & t & b & Hin & Hv & Ht)].
           ++ right. exists msg, ts', b'. split; [apply list_elem_of_here|done].
           ++ by left.
           ++ right. exists m, t, b. split; [by apply list_elem_of_further|done].
        -- intros [Hi|(m & t & b & Hin & Hv & Ht)]; [by left; right|].
           apply elem_of_cons in Hin as [->|Hin].
           ++ rewrite Hview in Hv. injection Hv as -> _ _. by left; left.
           ++ right. by exists m, t, b.
      * apply bool_decide_eq_false in Hf. apply dec_stable in Hf. split.
        -- intros [Hi|(m & t & b & Hin & Hv & Ht)]; [by left|].
           right. exists m, t, b. split; [by apply list_elem_of_further|done].
        -- intros [Hi|(m & t & b & Hin & Hv & Ht)]; [by left|].
           apply elem_of_cons in Hin as [->|Hin].
           ++ rewrite Hview in Hv. injection Hv as -> _ _. by left.
           ++ right. by exists m, t, b.
    + split.
      * intros [Hi|(m & t & b & Hin & Hv & Ht)]; [by left|].
        right. exists m, t, b. split; [by apply list_elem_of_further|done].
      * intros [Hi|(m & t & b & Hin & Hv & Ht)]; [by left|].
        apply elem_of_cons in Hin as [->|Hin].
        -- rewrite Hview in Hv. injection Hv as _ -> _.
           exfalso. exact (Z.lt_irrefl _ (Z.le_lt_trans _ _ _ Hge Ht)).
        -- right. by exists m, t, b.
Qed.


Lemma view_has_id (i : pystr) (msg : json) (i' : pystr) (sent_ts : Z)
    (b : pystr) :
  message_view msg = Some (i', sent_ts, b) ->
  has_id i msg = true -> i' = i.
Proof.
  intros Hview Hid. apply has_id_getitem in Hid.
  unfold message_view in Hview. rewrite Hid in Hview.
  destruct (bind _ _) as [?| |]; try discriminate.
  destruct (py_getitem msg (u "Body")) as [[]| |]; try discriminate.
  by injection Hview as ->.
Qed.

Lemma displays_in_old (i : pystr) (msgs : list json) (st : state) :
  Forall (fun m => is_Some (message_view m)) msgs ->
  (forall msg sent_ts b,
      msg ∈ msgs -> message_view msg = Some (i, sent_ts, b) ->
      (sent_ts <= START_TIME)%Z) ->
  displays_in i msgs st = 0%nat.
Proof.
  intros H. revert st.
  induction H as [|msg msgs [[[i' ts'] b'] Hview] _ IH]; intros st Hold;
    [done|].
  cbn [displays_in].
  destruct (handle_message_view _ _ _ _ st Hview) as [_ Hh].
  unfold shows. rewrite Hh. cbn [snd].
  assert (has_id i msg
          && negb (length (trace (if (START_TIME <? ts')%Z
                                        && bool_decide (i' ∉ SEEN st)
                                     then displayed i' b' st else st))
                   =? length (trace st))%nat = false) as ->.
  { destruct (has_id i msg) eqn:Hid; [| done].
    rewrite (view_has_id _ _ _ _ _ Hview Hid) in Hview.
    assert ((START_TIME <? ts')%Z = false) as ->.
    { apply Z.ltb_ge. eapply Hold; [apply list_elem_of_here | done]. }
    cbn. by rewrite Nat.eqb_refl. }
  apply IH. intros m t b Hin. apply Hold. by apply list_elem_of_further.
Qed.

(** X11. A message sent at or before the launch is never displayed,
    however often well-shaped polls deliver it, and its identifier never
    enters the seen-set. *)
Theorem old_never_displayed (i : pystr) (responses : list json) (st : state) :
  Forall (fun response => well_shaped response = true) responses ->
  i ∉ SEEN st ->
  (forall (response : json) (msgs : list json) (msg : json) (sent_ts : Z)
          (b : pystr),
      response ∈ responses -> response_messages response = Some msgs ->
      msg ∈ msgs -> message_view msg = Some (i, sent_ts, b) ->
      (sent_ts <= START_TIME)%Z) ->
  displays i responses st = 0%nat /\ i ∉ SEEN (watch responses st).2.
Proof.
  intros H. revert st. unfold watch.
  induction H as [|response responses Hr _ IH]; intros st Hi Hold; [done|].
  cbn [displays for_each].
  destruct (well_shaped_messages _ Hr) as (msgs & Hmsgs & Hviews).
  rewrite Hmsgs. cbn [default from_option id].
  assert (forall msg sent_ts b,
             msg ∈ msgs -> message_view msg = Some (i, sent_ts, b) ->
             (sent_ts <= START_TIME)%Z) as Hold0.
  { intros m t b. apply (Hold response msgs); [apply list_elem_of_here|done]. }
  rewrite (displays_in_old i msgs st Hviews Hold0).
  pose proof (seen_for_each_views msgs st i Hviews) as Hfe.
  destruct (for_each_views msgs st Hviews) as [st1 Hst1].
  rewrite (process_response_messages _ _ _ Hmsgs), Hst1.
  erewrite mbind_ok
    by (rewrite (process_response_messages _ _ _ Hmsgs); exact Hst1).
  rewrite Hst1 in Hfe. cbn [snd] in Hfe.
  apply IH.
  - rewrite Hfe. intros [Hin|(m & t & b & Hin & Hv & Ht)]; [done|].
    specialize (Hold0 m t b Hin Hv).
    exact (Z.lt_irrefl _ (Z.le_lt_trans _ _ _ Hold0 Ht)).
  - intros r ms m t b Hin. apply Hold. by apply list_elem_of_further.
Qed.






(** ** What reaches the terminal *)

Lemma printable_u_uint (d : Decimal.uint) :
  forallb printable (u (NilEmpty.string_of_uint d)) = true.
Proof. induction d; cbn; [done | exact IHd..]. Qed.

Lemma printable_int_text (z : Z) : forallb printable (int_text z) = true.
Proof.
  unfold int_text, NilZero.string_of_int.
  destruct (Z.to_int z) as [d|d]; unfold NilZero.string_of_uint.
  - destruct d; try apply printable_u_uint; done.
  - change (forallb printable
              (45 :: u match d with
                       | Decimal.Nil => "0"%string
                       | _ => NilEmpty.string_of_uint d
                       end) = true).
    cbn [forallb]. destruct d; try apply printable_u_uint; done.
Qed.

Lemma printable_app (a b : pystr) :
  forallb printable (a ++ b) = true
  <-> forallb printable a = true /\ forallb printable b = true.
Proof. by rewrite forallb_app, andb_true_iff. Qed.

Lemma printable_hex_digit (n : N) :
  n < 16 -> printable (hex_digit n) = true.
Proof.
  intros Hn. unfold hex_digit, printable.
  destruct (N.ltb_spec n 10);
    repeat (rewrite ?orb_true_iff, ?andb_true_iff, ?N.leb_le, ?N.eqb_eq); lia.
Qed.

Lemma printable_u_escape (n : N) : forallb printable (u_escape n) = true.
Proof.
  unfold u_escape. cbn [forallb].
  rewrite !printable_hex_digit by (apply N.mod_lt; lia). done.
Qed.

Lemma printable_escape_char (c : N) :
  forallb printable (escape_char c) = true.
Proof.
  unfold escape_char.
  repeat (match goal with
          | |- context [if ?b then _ else _] => destruct b eqn:?
          end; try done).
  - cbn. rewrite andb_true_r. unfold printable.
    by match goal with H : _ && _ = true |- _ => rewrite H, orb_true_r end.
  - apply printable_u_escape.
  - apply printable_app. split; apply printable_u_escape.
Qed.

Lemma printable_encode_str (s : pystr) :
  forallb printable (encode_str s) = true.
Proof.
  unfold encode_str. cbn [forallb]. apply andb_true_iff. split; [done|].
  apply printable_app. split; [| done].
  induction s as [|c s IH]; [done|]. cbn [map concat].
  apply printable_app. split; [apply printable_escape_char | exact IH].
Qed.

Lemma printable_newline_indent (level : nat) :
  forallb printable (newline_indent level) = true.
Proof.
  unfold newline_indent. cbn [forallb]. apply andb_true_iff. split; [done|].
  induction (2 * level)%nat as [|n IH]; [done | exact IH].
Qed.

Lemma printable_join (sep : pystr) (parts : list pystr) :
  forallb printable sep = true ->
  Forall (fun p => forallb printable p = true) parts ->
  forallb printable (join sep parts) = true.
Proof.
  intros Hsep. induction 1 as [|p parts Hp _ IH]; [done|].
  cbn [join]. destruct parts as [|p' parts]; [done|].
  apply printable_app. split; [done|]. apply printable_app. by split.
Qed.

(** Induction on decoded values, through lists and dicts. *)
Fixpoint json_nested_ind (P : json -> Prop)
    (Hnull : P JNull) (Hbool : forall b, P (JBool b))
    (Hint : forall z, P (JInt z)) (Hfloat : forall lit, P (JFloat lit))
    (Hstr : forall s, P (JStr s))
    (Harr : forall items, Forall P items -> P (JArr items))
    (Hobj : forall fields, Forall (fun kv => P kv.2) fields -> P (JObj fields))
    (v : json) {struct v} : P v :=
  match v with
  | JNull => Hnull
  | JBool b => Hbool b
  | JInt z => Hint z
  | JFloat lit => Hfloat lit
  | JStr s => Hstr s
  | JArr items =>
      Harr items
        ((fix all (l : list json) : Forall P l :=
            match l with
            | [] => @List.Forall_nil _ P
            | x :: l' =>
                @List.Forall_cons _ P x l'
                  (json_nested_ind P Hnull Hbool Hint Hfloat Hstr Harr Hobj x)
                  (all l')
            end) items)
  | JObj fields =>
      Hobj fields
        ((fix all (l : list (pystr * json)) : Forall (fun kv => P kv.2) l :=
            match l with
            | [] => @List.Forall_nil _ (fun kv => P kv.2)
            | kv :: l' =>
                @List.Forall_cons _ (fun kv => P kv.2) kv l'
                  (json_nested_ind P Hnull Hbool Hint Hfloat Hstr Harr Hobj
                     kv.2)
                  (all l')
            end) fields)
  end.

Lemma printable_dumps_at (v : json) (level : nat) :
  (forall lit, forallb printable (float_text lit) = true) ->
  forallb printable (dumps_at float_text level v) = true.
Proof.
  intros Hfloat. revert level.
  induction v as [|b|z|lit|s|items IH|fields IH] using json_nested_ind;
    intros level.
  - done.
  - by destruct b.
  - apply printable_int_text.
  - apply Hfloat.
  - apply printable_encode_str.
  - destruct items as [|x items]; [done|].
    change (forallb printable
              (u "[" ++ newline_indent (S level)
                 ++ join (u "," ++ newline_indent (S level))
                         (map (dumps_at float_text (S level)) (x :: items))
                 ++ newline_indent level ++ u "]") = true).
    repeat (apply printable_app; split);
      try apply printable_newline_indent; try done.
    apply printable_join.
    + apply printable_app. split; [done | apply printable_newline_indent].
    + apply Forall_map. eapply Forall_impl; [exact IH|]. intros y Hy. apply Hy.
  - destruct fields as [|kv fields]; [done|].
    change (forallb printable
              (u "{" ++ newline_indent (S level)
                 ++ join (u "," ++ newline_indent (S level))
                         (map (fun kv => encode_str kv.1 ++ u ": "
                                 ++ dumps_at float_text (S level) kv.2)
                              (kv :: fields))
                 ++ newline_indent level ++ u "}") = true).
    repeat (apply printable_app; split);
      try apply printable_newline_indent; try done.
    apply printable_join.
    + apply printable_app. split; [done | apply printable_newline_indent].
    + apply Forall_map. eapply Forall_impl; [exact IH|]. intros y Hy.
      cbn beta.
      apply printable_app. split; [apply printable_encode_str|].
      apply printable_app. split; [done | apply Hy].
Qed.

(** X15. Whenever [format_event] pretty-prints, that is whenever its
    [try] block completes, the text holds printable ASCII characters and
    newlines only: control characters and characters beyond ASCII in the
    message come out as escapes.  (The text of a float is taken to be
    such, as [repr] gives it.) *)
Theorem pretty_text_printable (body text : pystr) :
  (forall lit, forallb printable (float_text lit) = true) ->
  format_event_try body = Ok text ->
  forallb printable text = true.
Proof.
  intros Hfloat. unfold format_event_try.
  destruct (loads body) as [obj| |]; cbn [bind]; try discriminate.
  destruct (py_contains (u "details") obj) as [has| |]; cbn [bind];
    try discriminate.
  destruct (if has then _ else _) as [obj'| |]; cbn [bind]; try discriminate.
  intros [= <-]. by apply printable_dumps_at.
Qed.

(** X16. The queue is resolved once, first thing after the banner, and
    never again: every later command of the run is the receive-message
    call on the URL that the resolution gave. *)
Theorem queue_resolved_once (startup : answer) (rounds : list round) :
  exists rest : list action,
    trace (run startup rounds).2
    = Stdout banner :: Spawn get_queue_url_argv :: rest
    /\ (forall argv : list pystr,
           Spawn argv ∈ rest ->
           exists q : pystr,
             resolved startup q = true /\ argv = receive_message_argv q).
Proof.
  assert (forall argv : list pystr, Spawn argv ∈ @nil action -> False)
    as Hnil by (intros argv H; by apply elem_of_nil in H).
  destruct startup as [returncode stdout|];
    [| exists []; split; [done | intros argv H; by destruct (Hnil argv)]].
  destruct (truthy (response_of returncode stdout)) as [[|]| |] eqn:Ht.
  - destruct (py_getitem (response_of returncode stdout) (u "QueueUrl"))
      as [queue_url|e|] eqn:Hq.
    + rewrite (run_loop _ _ _ _ Ht Hq).
      destruct (keeps_loop queue_url rounds loop_entry)
        as [_ (acts & Ha & Hacts)].
      assert (forall argv, Spawn argv ∈ acts ->
                exists q, resolved (Finished returncode stdout) q = true
                          /\ argv = receive_message_argv q) as Hspawn.
      { intros argv Hin. rewrite Forall_forall in Hacts.
        destruct (Hacts _ Hin) as (q & -> & ->). exists q. split; [| done].
        unfold resolved. rewrite Ht, Hq. unfold pystr_eqb.
        by apply bool_decide_eq_true. }
      destruct (loop queue_url rounds loop_entry) as [[?|e|] st];
        cbn [snd] in Ha.
      1,3: eexists; split; [cbn [snd]; rewrite Ha; reflexivity|];
           intros argv [Hin|Hin]%elem_of_cons; [discriminate Hin | auto].
      assert (exists tail,
                 trace (match e with
                        | KeyboardInterrupt =>
                            (Exited 0, after st [Stdout stopped_line])
                        | _ => (classify (Raise e), st)
                        end).2 = trace st ++ tail
                 /\ forall argv, Spawn argv ∈ tail -> False)
        as (tail & Htail & Hno).
      { destruct e; try (exists []; split; [by rewrite app_nil_r | done]).
        exists [Stdout stopped_line]. split; [done|].
        intros argv [Hin|Hin]%elem_of_cons; [discriminate Hin | eauto]. }
      eexists. split.
      * rewrite Htail, Ha. cbn [loop_entry trace]. rewrite <- app_assoc.
        reflexivity.
      * intros argv [Hin|Hin]%elem_of_cons; [discriminate Hin|].
        apply elem_of_app in Hin as [Hin|Hin]; [auto|].
        by destruct (Hno argv).
    + rewrite (run_no_queue_url _ _ _ _ Ht Hq).
      exists []. split; [done | intros argv H; by destruct (Hnil argv)].
    + destruct (response_of returncode stdout); cbn in Hq; try discriminate.
      by destruct (dict_get _ _).
  - rewrite (run_failed _ _ _ Ht). eexists. split; [reflexivity|].
    intros argv [Hin|Hin]%elem_of_cons; [discriminate Hin|].
    by destruct (Hnil argv).
  - by destruct (response_of returncode stdout).
  - rewrite (run_unmodelled _ _ _ Ht).
    exists []. split; [done | intros argv H; by destruct (Hnil argv)].
Qed.

(** X17. A decoded response needs no [Messages] key: without it the loop
    body runs over the default, the empty list, and nothing happens.  But
    a [Messages] that is [None], a boolean or a number cannot be iterated
    and raises [TypeError], and a truthy response that is not an object
    has no [get] and raises [AttributeError]; either leaves the state as
    it was. *)
Theorem process_response_edges (response : json) (st : state) :
  truthy response = Ok true ->
  (forall fields : list (pystr * json),
      response = JObj fields ->
      (dict_get (u "Messages") fields = None ->
       process_response response st = (Ok tt, st))
      /\ (forall v : json,
             dict_get (u "Messages") fields = Some v -> is_scalar v = true ->
             process_response response st = (Raise TypeError, st)))
  /\ ((forall fields : list (pystr * json), response <> JObj fields) ->
      process_response response st = (Raise AttributeError, st)).
Proof.
  intros Ht. unfold process_response, mbind, lift. rewrite Ht. split.
  - intros fields ->. cbn [py_get]. split.
    + by intros ->.
    + intros v -> Hv. by destruct v.
  - intros Hn. destruct response; try done. by destruct (Hn fields).
Qed.

End Watcher.
(** ** The theorems at the sample inputs *)

Lemma should_display_spec_witness :
  should_display sample_start ∅ sample_start (JStr (u "m-1")) = Ok false.
Proof.
  apply (proj2 (should_display_spec sample_start ∅ sample_start)).
  apply Z.le_refl.
Defined.


Lemma format_event_details_witness :
  format_event sample_float_text body_nested
  = Ok (dumps sample_float_text
          (JObj (dict_set (u "details") (JObj [(u "b", JInt 2)])
                          [(u "a", JInt 1);
                           (u "details", JStr (uq "{'b':2}"))]))).
Proof.
  apply (proj1 (proj1 (format_event_details sample_float_text)
                  body_nested
                  [(u "a", JInt 1); (u "details", JStr (uq "{'b':2}"))]
                  (uq "{'b':2}")
                  ltac:(vm_compute; reflexivity)
                  ltac:(vm_compute; reflexivity))).
  vm_compute. reflexivity.
Defined.


Lemma resolution_failure_exits_witness :
  run sample_start sample_float_text sample_clock (Finished 254 []) []
  = (Exited 1,
     {| SEEN := ∅;
        trace := [Stdout banner; Spawn get_queue_url_argv;
                  Stdout not_found_line];
        clock := 0 |}).
Proof.
  apply resolution_failure_exits. left. discriminate.
Defined.



Lemma only_receive_message_witness :
  exists q : pystr,
    receive_message_argv sample_queue
    = [u "awslocal"; u "sqs"; u "receive-message";
       u "--queue-url"; q;
       u "--max-number-of-messages"; u "10";
       u "--wait-time-seconds"; u "5";
       u "--visibility-timeout"; u "0";
       u "--attribute-names"; u "SentTimestamp";
       u "--region"; u "eu-west-2"; u "--output"; u "json"].
Proof.
  destruct (proj1 (only_receive_message sample_start sample_float_text
                     sample_clock)
              sample_startup
              [{| poll := Finished 254 []; sleep_interrupted := false |}]
              (receive_message_argv sample_queue)) as [H|H].
  - vm_compute.
    do 3 apply list_elem_of_further. apply list_elem_of_here.
  - vm_compute in H. discriminate H.
  - exact H.
Defined.

Lemma seen_grows_witness :
  exists i : pystr,
    (i ∉ SEEN initial_state)
    /\ SEEN (handle_message sample_start sample_float_text sample_clock
               (JObj [(u "MessageId", JStr (u "m-1"));
                      (u "Attributes",
                       JObj [(u "SentTimestamp", JStr (u "1700000000500"))]);
                      (u "Body", JStr (u "{}"))])
               initial_state).2
       = {[i]} ∪ SEEN initial_state.
Proof.
  destruct (proj1 (proj2 (proj2 (proj2 (proj2
              (seen_grows sample_start sample_float_text sample_clock))))
              (JObj [(u "MessageId", JStr (u "m-1"));
                     (u "Attributes",
                      JObj [(u "SentTimestamp", JStr (u "1700000000500"))]);
                     (u "Body", JStr (u "{}"))])
              initial_state))
    as (i & _ & Hfresh & Hseen & _).
  - vm_compute. reflexivity.
  - exists i. split; [exact Hfresh | exact Hseen].
Defined.

Lemma format_event_scalar_witness :
  format_event sample_float_text (u "42") = Ok (u "42").
Proof.
  apply (proj1 (format_event_scalar sample_float_text (u "42")) (JInt 42)).
  - vm_compute. reflexivity.
  - reflexivity.
Defined.

(** ** Where the specification says more than the script does *)




(** ** The further theorems at the sample inputs *)

Lemma format_event_list_or_string_witness :
  format_event sample_float_text (uq "['a']")
  = Ok (dumps sample_float_text (JArr [JStr (u "a")])).
Proof.
  apply (proj1 (format_event_list_or_string sample_float_text (uq "['a']"))
           [JStr (u "a")]).
  - vm_compute. reflexivity.
  - intros H. apply list_elem_of_singleton in H. discriminate H.
Defined.

Lemma format_event_keeps_fields_witness :
  exists fields' : list (pystr * json),
    format_event sample_float_text body_nested
    = Ok (dumps sample_float_text (JObj fields'))
    /\ map fst fields' = [u "a"; u "details"].
Proof.
  destruct (format_event_keeps_fields sample_float_text body_nested
              [(u "a", JInt 1); (u "details", JStr (uq "{'b':2}"))])
    as (fields' & Hf & Hk & _).
  - vm_compute. reflexivity.
  - exists fields'. split; [exact Hf | exact Hk].
Defined.

Lemma old_message_skipped_witness :
  handle_message sample_start sample_float_text sample_clock
    (JObj [(u "MessageId", JArr []);
           (u "Attributes", JObj [(u "SentTimestamp", JStr (u "5"))])])
    initial_state
  = (Ok tt, initial_state).
Proof.
  apply (old_message_skipped sample_start sample_float_text sample_clock
           _ (JArr []) (JObj [(u "SentTimestamp", JStr (u "5"))])
           (JStr (u "5")) 5).
  - vm_compute. reflexivity.
  - vm_compute. reflexivity.
  - vm_compute. reflexivity.
  - vm_compute. reflexivity.
  - discriminate.
Defined.

Lemma missing_body_marks_seen_witness :
  handle_message sample_start sample_float_text sample_clock
    (JObj [(u "MessageId", JStr (u "m-5"));
           (u "Attributes",
            JObj [(u "SentTimestamp", JStr (u "1700000000500"))])])
    initial_state
  = (Raise KeyError,
     {| SEEN := {[u "m-5"]} ∪ SEEN initial_state;
        trace := trace initial_state
                   ++ [Stdout (header sample_clock (clock initial_state))];
        clock := S (clock initial_state) |}).
Proof.
  apply (missing_body_marks_seen sample_start sample_float_text sample_clock
           _ (u "m-5")
           (JObj [(u "SentTimestamp", JStr (u "1700000000500"))])
           (JStr (u "1700000000500")) 1700000000500).
  - vm_compute. reflexivity.
  - vm_compute. reflexivity.
  - vm_compute. reflexivity.
  - vm_compute. reflexivity.
  - reflexivity.
  - apply not_elem_of_empty.
  - vm_compute. reflexivity.
Defined.


Lemma exit_status_zero_witness :
  existsb interrupted [{| poll := Interrupted; sleep_interrupted := false |}]
  = true.
Proof.
  apply (exit_status_zero sample_start sample_float_text sample_clock
           sample_startup
           [{| poll := Interrupted; sleep_interrupted := false |}]).
  vm_compute. reflexivity.
Defined.

Lemma resolution_without_queue_url_witness :
  exists e : exn,
    (e = KeyError \/ e = TypeError)
    /\ run sample_start sample_float_text sample_clock
           (Finished 0 (u "[1]")) []
       = (Uncaught e,
          {| SEEN := ∅;
             trace := [Stdout banner; Spawn get_queue_url_argv];
             clock := 0 |}).
Proof.
  apply (resolution_without_queue_url sample_start sample_float_text
           sample_clock 0 (u "[1]") []).
  - vm_compute. reflexivity.
  - intros v H. vm_compute in H. discriminate H.
Defined.




Lemma old_never_displayed_witness :
  displays sample_start sample_float_text sample_clock (u "m-0")
           [response_of 0 poll_old; response_of 0 poll_old] initial_state
  = 0%nat.
Proof.
  apply (old_never_displayed sample_start sample_float_text sample_clock
           (u "m-0") [response_of 0 poll_old; response_of 0 poll_old]
           initial_state).
  - apply Forall_cons. split; [vm_compute; reflexivity|].
    apply Forall_cons. split; [vm_compute; reflexivity | apply Forall_nil_2].
  - apply not_elem_of_empty.
  - intros response msgs msg sent_ts b Hr Hmsgs Hin Hview.
    assert (response = response_of 0 poll_old) as ->.
    { apply elem_of_cons in Hr as [->|Hr]; [done|].
      by apply list_elem_of_singleton in Hr. }
    vm_compute in Hmsgs. injection Hmsgs as <-.
    apply list_elem_of_singleton in Hin. subst msg.
    vm_compute in Hview. injection Hview as <- _. discriminate.
Defined.




Lemma pretty_text_printable_witness :
  forallb printable
    (dumps (fun _ => u "0.5")
           (JObj [(u "a", JInt 1); (u "details", JObj [(u "b", JInt 2)])]))
  = true.
Proof.
  apply (pretty_text_printable (fun _ => u "0.5") body_nested).
  - intros lit. reflexivity.
  - vm_compute. reflexivity.
Defined.

Lemma queue_resolved_once_witness :
  exists rest : list action,
    trace (run sample_start sample_float_text sample_clock sample_startup
               [{| poll := Finished 254 []; sleep_interrupted := false |}]).2
    = Stdout banner :: Spawn get_queue_url_argv :: rest
    /\ exists q : pystr,
         resolved sample_startup q = true
         /\ receive_message_argv sample_queue = receive_message_argv q.
Proof.
  destruct (queue_resolved_once sample_start sample_float_text sample_clock
              sample_startup
              [{| poll := Finished 254 []; sleep_interrupted := false |}])
    as (rest & Htrace & Hspawn).
  exists rest. split; [exact Htrace|].
  apply Hspawn.
  vm_compute in Htrace. injection Htrace as <-.
  apply list_elem_of_further, list_elem_of_here.
Defined.

Lemma process_response_edges_witness :
  process_response sample_start sample_float_text sample_clock
    (JObj [(u "ResponseMetadata", JObj [])]) initial_state
  = (Ok tt, initial_state).
Proof.
  apply (proj1 (process_response_edges sample_start sample_float_text
                  sample_clock (JObj [(u "ResponseMetadata", JObj [])])
                  initial_state eq_refl)
           [(u "ResponseMetadata", JObj [])] eq_refl).
  vm_compute. reflexivity.
Defined.
